(** * Verification model of [streamlit_app.py]

    The program is a linear pipeline: slide texts are read out of a parsed
    presentation, one narration script per slide is requested from a remote
    language model, one audio file per script is requested from a remote
    text-to-speech service, the results are displayed, and the temporary
    files are removed in a [finally] block.

    The pure parts (text extraction, file naming) are embedded as functions.
    The effectful parts run in a small state-and-exception monad over a
    [World] made of the temp-directory file system and a chronological trace
    of the interactions with the collaborators (remote services, UI). *)

From Stdlib Require Import Ascii String DecimalString DecimalNat.
From stdpp Require Import base option list strings gmap.

Local Open Scope string_scope.
Local Open Scope list_scope.

(** ** Python built-ins used by the program *)

(** [str(n)] for a non-negative integer: its decimal digits. *)
Definition str_int (n : nat) : string :=
  NilEmpty.string_of_uint (Nat.to_uint n).

(** [sep.join(parts)]. *)
Fixpoint str_join (sep : string) (parts : list string) : string :=
  match parts with
  | [] => ""
  | [x] => x
  | x :: rest => x +:+ sep +:+ str_join sep rest
  end.

(** [enumerate(xs, start)]. *)
Fixpoint enumerate {A} (xs : list A) (start : nat) : list (nat * A) :=
  match xs with
  | [] => []
  | x :: rest => (start, x) :: enumerate rest (S start)
  end.

(** [s.startswith(c)] and [s.endswith(c)] for a one-character [c]. *)
Definition startswith_char (s : string) (c : ascii) : bool :=
  match s with
  | String a _ => bool_decide (a = c)
  | EmptyString => false
  end.

Fixpoint endswith_char (s : string) (c : ascii) : bool :=
  match s with
  | EmptyString => false
  | String a EmptyString => bool_decide (a = c)
  | String _ rest => endswith_char rest c
  end.

(** [os.path.join(a, b)] with two arguments, as [posixpath] defines it. *)
Definition os_path_join (a b : string) : string :=
  if startswith_char b "/" then b
  else if bool_decide (a = "") || endswith_char a "/" then a +:+ b
  else a +:+ "/" +:+ b.

(** ** Data model: what the program reads of a parsed presentation *)

(** A shape either exposes a [text] attribute or does not
    ([hasattr(shape, "text")]). *)
Record Shape := { text : option string }.

Record Slide := { shapes : list Shape }.

Record Presentation := { slides : list Slide }.

(** ** Slide text extraction *)

(** The inner loop of [extract_slide_text]: [slide_text] is the list being
    appended to. *)
Definition collect_shape (slide_text : list string) (shape : Shape)
  : list string :=
  match text shape with
  | Some t => slide_text ++ [t]
  | None => slide_text
  end.

(** The body of the outer loop: [slide_texts] is the list being appended
    to. *)
Definition collect_slide (slide_texts : list string) (slide : Slide)
  : list string :=
  let slide_text := fold_left collect_shape (shapes slide) [] in
  slide_texts ++ [str_join " " slide_text].

Definition extract_slide_text (presentation : Presentation) : list string :=
  fold_left collect_slide (slides presentation) [].

(** The extractor as the specification words it: per slide, the texts of the
    text-bearing shapes in shape order, joined by single spaces. *)
Definition shape_texts (slide : Slide) : list string :=
  omap text (shapes slide).

Definition slide_text_spec (slide : Slide) : string :=
  str_join " " (shape_texts slide).

Definition extract_spec (presentation : Presentation) : list string :=
  map slide_text_spec (slides presentation).

(** ** Exceptions, collaborators and the world *)

(** Every failure the program handles is an instance of Python's
    [Exception], and the program only ever observes [str(e)]; an exception
    is therefore modelled by its message. *)
Record exn := Exception { str_exn : string }.

Definition IndexError : exn := Exception "list index out of range".
Definition AttributeError (class attr : string) : exn :=
  Exception ("'" +:+ class +:+ "' object has no attribute '" +:+ attr +:+ "'").
(** [str(KeyError(key))] is [repr(key)], which is the key between
    apostrophes when the key has no apostrophe, backslash or control
    character; for other keys the message differs. *)
Definition KeyError (key : string) : exn :=
  Exception ("'" +:+ key +:+ "'").
Definition FileNotFoundError (path : string) : exn :=
  Exception ("[Errno 2] No such file or directory: '" +:+ path +:+ "'").
(** What [Presentation(path)] raises when there is no file at [path]. *)
Definition PackageNotFoundError (path : string) : exn :=
  Exception ("Package not found at '" +:+ path +:+ "'").

(** A block of [response.content]: only text blocks carry [.text]. *)
Inductive ContentBlock :=
| TextBlock (t : string)
| ToolUseBlock.

(** Interactions of one run with its collaborators, in the order of
    occurrence.  Remote calls are recorded with the answer received.  Of the
    user interface, the calls that show something of the run are recorded:
    [st.error], the updates [progress_bar.progress(num / den)], [st.header],
    [st.subheader], [st.write] and [st.audio].  The construction of the
    widgets (page configuration, title, inputs, and the progress bar, which
    [st.progress(0)] creates empty) leaves no event. *)
Inductive Event :=
| LlmCall (api_key model : string) (max_tokens : nat) (content : string)
          (response : exn + list ContentBlock)
| TtsCall (script lang : string) (response : exn + string)
| FileWrite (path content : string)
| FileUnlink (path : string)
| StError (msg : string)
| StProgress (num den : nat)
| StHeader (body : string)
| StSubheader (body : string)
| StWrite (body : string)
| StAudio (path format : string).

(** The file system maps a path to the bytes stored there. *)
Record World := {
  fs : gmap string string;
  trace : list Event
}.

(** The collaborators.  The remote services, the identifier generator and
    the temp-name generator may answer differently each time: they are
    functions of the history of the run.  The speech library answers a
    script with its audio stream, or fails with an exception; as it may
    fail after having opened the output file, a failure tells the bytes it
    left in that file, if it created it. *)
Record Env := {
  messages_create :
    list Event -> string -> string -> nat -> string -> exn + list ContentBlock;
  gTTS : list Event -> string -> string -> exn * option string + string;
  uuid4 : list Event -> string;
  gettempdir : string;
  random_name : list Event -> string;
  parse_pptx : string -> exn + Presentation
}.

(** ** The monad of effectful code: state passing with exceptions *)

Definition M (A : Type) : Type := World -> (exn + A) * World.

Definition ret {A} (a : A) : M A := fun w => (inr a, w).

Definition raise {A} (e : exn) : M A := fun w => (inl e, w).

Definition bind {A B} (m : M A) (k : A -> M B) : M B :=
  fun w =>
    match m w with
    | (inr a, w') => k a w'
    | (inl e, w') => (inl e, w')
    end.

Notation "'do' x <- m ; k" := (bind m (fun x => k))
  (at level 10, x name, m at level 100, k at level 200).
Notation "'do' ' p <- m ; k" := (bind m (fun x => match x with p => k end))
  (at level 10, p pattern, m at level 100, k at level 200).

(** [try: body except Exception as e: handler e]. *)
Definition try_except {A} (body : M A) (handler : exn -> M A) : M A :=
  fun w =>
    match body w with
    | (inr a, w') => (inr a, w')
    | (inl e, w') => handler e w'
    end.

Definition emit (ev : Event) : M unit :=
  fun w => (inr tt, {| fs := fs w; trace := trace w ++ [ev] |}).

(** A [for] loop whose body updates a local accumulator; an exception in the
    body leaves the loop and the accumulator is lost with the frame. *)
Fixpoint for_acc {A B} (body : B -> A -> M B) (acc : B) (xs : list A) : M B :=
  match xs with
  | [] => ret acc
  | x :: rest => do acc' <- body acc x; for_acc body acc' rest
  end.

Fixpoint for_each {A} (body : A -> M unit) (xs : list A) : M unit :=
  match xs with
  | [] => ret tt
  | x :: rest => do _ <- body x; for_each body rest
  end.

(** UI calls *)
Definition st_error (msg : string) : M unit := emit (StError msg).
Definition st_progress (num den : nat) : M unit := emit (StProgress num den).
Definition st_header (body : string) : M unit := emit (StHeader body).
Definition st_subheader (body : string) : M unit := emit (StSubheader body).
Definition st_write (body : string) : M unit := emit (StWrite body).
Definition st_audio (path format : string) : M unit :=
  emit (StAudio path format).

(** File system calls *)
Definition write_file (path content : string) : M unit :=
  fun w =>
    (inr tt, {| fs := <[path := content]> (fs w);
                trace := trace w ++ [FileWrite path content] |}).

Definition os_unlink (path : string) : M unit :=
  fun w =>
    match fs w !! path with
    | Some _ =>
        (inr tt, {| fs := delete path (fs w);
                    trace := trace w ++ [FileUnlink path] |})
    | None => (inl (FileNotFoundError path), w)
    end.

(** ** The program *)

Section Program.
Context (env : Env).

(** [anthropic.Anthropic(api_key=...)]: the client keeps the credential. *)
Record Anthropic := { api_key : string }.

(** [client.messages.create(model=..., max_tokens=..., messages=[user
    message])]: one blocking request; it returns the content blocks of the
    response or raises. *)
Definition client_messages_create (client : Anthropic) (model : string)
    (max_tokens : nat) (content : string) : M (list ContentBlock) :=
  fun w =>
    let response :=
      messages_create env (trace w) (api_key client) model max_tokens content in
    let w' :=
      {| fs := fs w;
         trace := trace w ++
           [LlmCall (api_key client) model max_tokens content response] |} in
    match response with
    | inr blocks => (inr blocks, w')
    | inl e => (inl e, w')
    end.

Record ClaudePPTScriptGenerator := {
  client : Anthropic;
  model : string
}.

(** [ClaudePPTScriptGenerator.__init__] *)
Definition ClaudePPTScriptGenerator_init (key : string)
  : ClaudePPTScriptGenerator :=
  {| client := {| api_key := key |};
     model := "claude-3-5-sonnet-20240620" |}.

(** The f-string sent as the user message. *)
Definition prompt (slide_text : string) : string :=
  "Create a professional, engaging presentation script for a slide with the following content:

Slide Content: " +:+ slide_text +:+ "

Requirements:
- Write in a clear, confident speaking style
- Provide context and explain key points
- Use professional language suitable for business or academic presentations
- Include transitions and highlights
- Aim for about 2-3 sentences per slide".

(** [response.content[0].text] *)
Definition first_block_text (blocks : list ContentBlock) : M string :=
  match blocks with
  | [] => raise IndexError
  | TextBlock t :: _ => ret t
  | ToolUseBlock :: _ => raise (AttributeError "ToolUseBlock" "text")
  end.

Definition fallback_script (slide_text : string) : string :=
  "Slide content: " +:+ slide_text.

Definition generate_slide_script (self : ClaudePPTScriptGenerator)
    (slide_text : string) : M string :=
  try_except
    (do response <-
       client_messages_create (client self) (model self) 300
         (prompt slide_text);
     first_block_text response)
    (fun e =>
       do _ <- st_error ("Error generating script with Claude: " +:+ str_exn e);
       ret (fallback_script slide_text)).

(** [gTTS(text=script, lang=voice)] followed by [tts.save(path)]: one
    request to the speech service; the stream it returns is written to
    [path].  A failure raises, possibly leaving a file begun at [path]. *)
Definition gTTS_save (script voice path : string) : M unit :=
  fun w =>
    match gTTS env (trace w) script voice with
    | inr audio =>
        write_file path audio
          {| fs := fs w;
             trace := trace w ++ [TtsCall script voice (inr audio)] |}
    | inl (e, partial) =>
        let w1 :=
          match partial with
          | Some bytes => snd (write_file path bytes w)
          | None => w
          end in
        (inl e,
         {| fs := fs w1;
            trace := trace w1 ++ [TtsCall script voice (inl e)] |})
    end.

Definition uuid4_str : M string := fun w => (inr (uuid4 env (trace w)), w).

Definition audio_filename (i : nat) (uuid : string) : string :=
  "slide_" +:+ str_int i +:+ "_" +:+ uuid +:+ ".mp3".

(** The body of the loop of [generate_audio] (lines 89-96). *)
Definition generate_audio_body (voice : string) (audio_files : list string)
    (item : nat * string) : M (list string) :=
  let '(i, script) := item in
  do uuid <- uuid4_str;
  let filename := audio_filename i uuid in
  let temp_audio_path := os_path_join (gettempdir env) filename in
  do _ <- gTTS_save script voice temp_audio_path;
  ret (audio_files ++ [temp_audio_path]).

Definition generate_audio (scripts : list string) (voice : string)
  : M (list string) :=
  for_acc (generate_audio_body voice) [] (enumerate scripts 1).

(** The [voice_options] dictionary of [main], in insertion order. *)
Definition voice_options : list (string * string) :=
  [ ("English (US)", "en");
    ("Spanish", "es");
    ("French", "fr");
    ("German", "de");
    ("Italian", "it");
    ("Portuguese", "pt") ].

(** [d[key]] *)
Fixpoint dict_get (d : list (string * string)) (key : string) : M string :=
  match d with
  | [] => raise (KeyError key)
  | (k, v) :: rest => if bool_decide (k = key) then ret v else dict_get rest key
  end.

(** [xs[i]] for [i >= 0] *)
Definition list_get (xs : list string) (i : nat) : M string :=
  match xs !! i with
  | Some x => ret x
  | None => raise IndexError
  end.

(** What the widgets of [main] returned in this execution of the script. *)
Record Inputs := {
  api_key_input : string;
  uploaded_file : option string;
  selected_voice : string;
  process_button : bool
}.

(** [with tempfile.NamedTemporaryFile(delete=False, suffix=".pptx")]: the
    uploaded bytes are stored under a generated name in the temp
    directory, which is taken to be writable.  (The statement stands before
    the [try]: were the directory not writable, its exception would leave
    [main]; the model has no such run.) *)
Definition NamedTemporaryFile_write (suffix content : string) : M string :=
  fun w =>
    let name :=
      os_path_join (gettempdir env)
        ("tmp" +:+ random_name env (trace w) +:+ suffix) in
    match write_file name content w with
    | (inr _, w') => (inr name, w')
    | (inl e, w') => (inl e, w')
    end.

(** [Presentation(tmp_file_path)] *)
Definition load_presentation (path : string) : M Presentation :=
  fun w =>
    match fs w !! path with
    | None => (inl (PackageNotFoundError path), w)
    | Some bytes =>
        match parse_pptx env bytes with
        | inr p => (inr p, w)
        | inl e => (inl e, w)
        end
    end.

(** The scripting loop of [main] (lines 142-147) and its body; [total] is
    [len(slide_texts)].  The events of the loop are its requests, its
    notices and its updates of the progress bar; the creation of the bar on
    line 143 is a widget construction and leaves none. *)
Definition scripting_body (script_generator : ClaudePPTScriptGenerator)
    (total : nat) (scripts : list string) (item : nat * string)
  : M (list string) :=
  let '(i, slide_text) := item in
  do script <- generate_slide_script script_generator slide_text;
  do _ <- st_progress (i + 1) total;
  ret (scripts ++ [script]).

Definition scripting_loop (script_generator : ClaudePPTScriptGenerator)
    (slide_texts : list string) : M (list string) :=
  for_acc (scripting_body script_generator (length slide_texts))
    [] (enumerate slide_texts 0).

(** The [try] block up to and including the assignment of [audio_files]
    (lines 135-150). *)
Definition main_pipeline (script_generator : ClaudePPTScriptGenerator)
    (tmp_file_path : string) (voice_key : string)
  : M (list string * list string) :=
  do presentation <- load_presentation tmp_file_path;
  let slide_texts := extract_slide_text presentation in
  do scripts <- scripting_loop script_generator slide_texts;
  do voice <- dict_get voice_options voice_key;
  do audio_files <- generate_audio scripts voice;
  ret (scripts, audio_files).

(** The rest of the [try] block: display (lines 152-159). *)
Definition main_display_body (audio_files : list string)
    (item : nat * string) : M unit :=
  let '(i, script) := item in
  do _ <- st_subheader ("Slide " +:+ str_int i);
  do _ <- st_write script;
  do path <- list_get audio_files (i - 1);
  st_audio path "audio/mp3".

Definition main_display (scripts audio_files : list string) : M unit :=
  do _ <- st_header "📜 Generated Presentation Scripts";
  for_each (main_display_body audio_files) (enumerate scripts 1).

(** The [except Exception as e] clause. *)
Definition main_except (e : exn) : M unit :=
  st_error ("An error occurred: " +:+ str_exn e).

(** The [finally] clause.  [tmp_file_path] is always bound when it runs;
    [audio_files] is bound exactly when [generate_audio] has returned. *)
Definition main_finally (tmp_file_path : string)
    (audio_files : option (list string)) : M unit :=
  do _ <- os_unlink tmp_file_path;
  match audio_files with
  | Some paths => for_each os_unlink paths
  | None => ret tt
  end.

Definition gate (inp : Inputs) : bool :=
  process_button inp
  && negb (bool_decide (api_key_input inp = ""))
  && bool_decide (uploaded_file inp <> None).

Definition main (inp : Inputs) : M unit :=
  if gate inp then
    let script_generator := ClaudePPTScriptGenerator_init (api_key_input inp) in
    do tmp_file_path <-
      NamedTemporaryFile_write ".pptx" (default "" (uploaded_file inp));
    fun w =>
      match main_pipeline script_generator tmp_file_path
              (selected_voice inp) w with
      | (inr (scripts, audio_files), w1) =>
          (do _ <- try_except (main_display scripts audio_files) main_except;
           main_finally tmp_file_path (Some audio_files)) w1
      | (inl e, w1) =>
          (do _ <- main_except e;
           main_finally tmp_file_path None) w1
      end
  else ret tt.

End Program.

(** ** Vocabulary of the statements *)

(** Decimal digits, the only characters of [str(i)]. *)
Definition is_digit (c : ascii) : bool :=
  bool_decide (c ∈ ["0"; "1"; "2"; "3"; "4"; "5"; "6"; "7"; "8"; "9"]%char).

Fixpoint digits_only (s : string) : bool :=
  match s with
  | EmptyString => true
  | String c rest => is_digit c && digits_only rest
  end.

(** What the [try] block of [generate_slide_script] evaluates to for a
    given answer of the service. *)
Definition script_result (response : exn + list ContentBlock) : exn + string :=
  match response with
  | inl e => inl e
  | inr [] => inl IndexError
  | inr (TextBlock t :: _) => inr t
  | inr (ToolUseBlock :: _) => inl (AttributeError "ToolUseBlock" "text")
  end.

(** The remote call failed: it raised, or its answer has no leading text. *)
Definition llm_failed (response : exn + list ContentBlock) : bool :=
  match script_result response with
  | inl _ => true
  | inr _ => false
  end.

Definition script_of_response (slide_text : string)
    (response : exn + list ContentBlock) : string :=
  match script_result response with
  | inr t => t
  | inl _ => fallback_script slide_text
  end.

(** Events of one call of [generate_slide_script]. *)
Definition script_events (gen : ClaudePPTScriptGenerator) (slide_text : string)
    (response : exn + list ContentBlock) : list Event :=
  LlmCall (api_key (client gen)) (model gen) 300 (prompt slide_text) response
  :: match script_result response with
     | inl e =>
         [StError ("Error generating script with Claude: " +:+ str_exn e)]
     | inr _ => []
     end.

(** Events of the scripting loop over [texts], slide numbering starting
    after [k], with [n] the total number of slides. *)
Fixpoint scripting_events (gen : ClaudePPTScriptGenerator) (n k : nat)
    (texts : list string) (responses : list (exn + list ContentBlock))
  : list Event :=
  match texts, responses with
  | t :: texts', r :: responses' =>
      script_events gen t r ++ StProgress (k + 1) n
        :: scripting_events gen n (S k) texts' responses'
  | _, _ => []
  end.

(** Paths chosen by [generate_audio] for identifiers [uuids], the first
    file being numbered [k]. *)
Fixpoint audio_paths (tmpdir : string) (k : nat) (uuids : list string)
  : list string :=
  match uuids with
  | [] => []
  | u :: rest =>
      os_path_join tmpdir (audio_filename k u) :: audio_paths tmpdir (S k) rest
  end.

(** Events of the successful synthesis of [scripts] into [paths]. *)
Fixpoint synth_events (voice : string) (scripts paths audios : list string)
  : list Event :=
  match scripts, paths, audios with
  | s :: scripts', p :: paths', a :: audios' =>
      TtsCall s voice (inr a) :: FileWrite p a
        :: synth_events voice scripts' paths' audios'
  | _, _, _ => []
  end.

(** What a failed synthesis leaves at [path]. *)
Definition leave_partial (path : string) (partial : option string)
    (files : gmap string string) : gmap string string :=
  match partial with
  | Some bytes => <[path := bytes]> files
  | None => files
  end.

Definition partial_events (path : string) (partial : option string)
  : list Event :=
  match partial with
  | Some bytes => [FileWrite path bytes]
  | None => []
  end.

Fixpoint write_all (paths audios : list string) (files : gmap string string)
  : gmap string string :=
  match paths, audios with
  | p :: paths', a :: audios' => write_all paths' audios' (<[p := a]> files)
  | _, _ => files
  end.

(** Events of [main_display]. *)
Fixpoint display_rows (k : nat) (scripts audio_files : list string)
  : list Event :=
  match scripts, audio_files with
  | s :: scripts', p :: paths' =>
      StSubheader ("Slide " +:+ str_int k) :: StWrite s
        :: StAudio p "audio/mp3" :: display_rows (S k) scripts' paths'
  | _, _ => []
  end.

Definition display_events (scripts audio_files : list string) : list Event :=
  StHeader "📜 Generated Presentation Scripts"
  :: display_rows 1 scripts audio_files.

(** Projections of a trace. *)
Definition llm_call_of (ev : Event)
  : option (string * nat * string * (exn + list ContentBlock)) :=
  match ev with
  | LlmCall _ m n c r => Some (m, n, c, r)
  | _ => None
  end.

Definition tts_call_of (ev : Event) : option (string * string * (exn + string)) :=
  match ev with
  | TtsCall s l r => Some (s, l, r)
  | _ => None
  end.

Definition written_of (ev : Event) : option string :=
  match ev with
  | FileWrite p _ => Some p
  | _ => None
  end.

Definition unlinked_of (ev : Event) : option string :=
  match ev with
  | FileUnlink p => Some p
  | _ => None
  end.

Definition error_of (ev : Event) : option string :=
  match ev with
  | StError msg => Some msg
  | _ => None
  end.

Definition llm_calls (tr : list Event)
  : list (string * nat * string * (exn + list ContentBlock)) :=
  omap llm_call_of tr.

Definition tts_calls (tr : list Event) : list (string * string * (exn + string)) :=
  omap tts_call_of tr.

Definition files_written (tr : list Event) : list string := omap written_of tr.

Definition files_unlinked (tr : list Event) : list string := omap unlinked_of tr.

Definition errors_shown (tr : list Event) : list string := omap error_of tr.

Definition is_display (ev : Event) : bool :=
  match ev with
  | StHeader _ | StSubheader _ | StWrite _ | StAudio _ _ => true
  | _ => false
  end.

Definition displayed (tr : list Event) : list Event := List.filter is_display tr.

(** The world after the events [evs], with file system [files]. *)
Definition after (w : World) (files : gmap string string) (evs : list Event)
  : World :=
  {| fs := files; trace := trace w ++ evs |}.

(** The value a dictionary holds for a key, if any. *)
Fixpoint dict_lookup (d : list (string * string)) (key : string)
  : option string :=
  match d with
  | [] => None
  | (k, v) :: rest => if bool_decide (k = key) then Some v else dict_lookup rest key
  end.

(** The file system after unlinking [paths] in order. *)
Fixpoint unlink_all (paths : list string) (files : gmap string string)
  : gmap string string :=
  match paths with
  | [] => files
  | p :: rest => unlink_all rest (delete p files)
  end.

(** The name under which a run stores the uploaded document. *)
Definition tmp_pptx_path (env : Env) (w : World) : string :=
  os_path_join (gettempdir env) ("tmp" +:+ random_name env (trace w) +:+ ".pptx").

(** [responses] are answers the language-model service gave, at some point
    of the history, to the requests for [texts]. *)
Definition answered (env : Env) (gen : ClaudePPTScriptGenerator)
    (texts : list string) (responses : list (exn + list ContentBlock)) : Prop :=
  Forall2
    (fun t r =>
       exists h,
         r = messages_create env h (api_key (client gen)) (model gen) 300
               (prompt t))
    texts responses.

(** The events a world has beyond those of an earlier world. *)
Definition new_events (w w' : World) : list Event :=
  drop (length (trace w)) (trace w').

(** The shapes an execution of [main] from world [w] can take, each with
    the result and final world it leaves: the gate stays closed; the
    document cannot be parsed; the voice key is unknown; the speech service
    refuses a script; everything is displayed. *)
Inductive run_shape (env : Env) (inp : Inputs) (w : World)
  : (exn + unit) * World -> Prop :=
| run_idle :
    gate inp = false ->
    run_shape env inp w (inr tt, w)
| run_parse_error content e :
    gate inp = true ->
    uploaded_file inp = Some content ->
    parse_pptx env content = inl e ->
    let tmp := tmp_pptx_path env w in
    run_shape env inp w
      (inr tt,
       after w (delete tmp (<[tmp := content]> (fs w)))
         [FileWrite tmp content;
          StError ("An error occurred: " +:+ str_exn e);
          FileUnlink tmp])
| run_voice_error content p responses :
    gate inp = true ->
    uploaded_file inp = Some content ->
    parse_pptx env content = inr p ->
    dict_lookup voice_options (selected_voice inp) = None ->
    answered env (ClaudePPTScriptGenerator_init (api_key_input inp))
      (extract_slide_text p) responses ->
    let tmp := tmp_pptx_path env w in
    let gen := ClaudePPTScriptGenerator_init (api_key_input inp) in
    let texts := extract_slide_text p in
    run_shape env inp w
      (inr tt,
       after w (delete tmp (<[tmp := content]> (fs w)))
         (FileWrite tmp content
          :: scripting_events gen (length texts) 0 texts responses
          ++ [StError ("An error occurred: "
                       +:+ str_exn (KeyError (selected_voice inp)));
              FileUnlink tmp]))
| run_tts_error content p voice responses ready failing rest e uuids audios
    fpath partial :
    gate inp = true ->
    uploaded_file inp = Some content ->
    parse_pptx env content = inr p ->
    dict_lookup voice_options (selected_voice inp) = Some voice ->
    answered env (ClaudePPTScriptGenerator_init (api_key_input inp))
      (extract_slide_text p) responses ->
    zip_with script_of_response (extract_slide_text p) responses
    = ready ++ failing :: rest ->
    length uuids = length ready ->
    length audios = length ready ->
    (exists h, gTTS env h failing voice = inl (e, partial)) ->
    fst (main_pipeline env (ClaudePPTScriptGenerator_init (api_key_input inp))
           (tmp_pptx_path env w) (selected_voice inp)
           (after w (<[tmp_pptx_path env w := content]> (fs w))
              [FileWrite (tmp_pptx_path env w) content]))
    = inl e ->
    let tmp := tmp_pptx_path env w in
    let gen := ClaudePPTScriptGenerator_init (api_key_input inp) in
    let texts := extract_slide_text p in
    let paths := audio_paths (gettempdir env) 1 uuids in
    run_shape env inp w
      (inr tt,
       after w
         (delete tmp
            (leave_partial fpath partial
               (write_all paths audios (<[tmp := content]> (fs w)))))
         (FileWrite tmp content
          :: scripting_events gen (length texts) 0 texts responses
          ++ synth_events voice ready paths audios
          ++ partial_events fpath partial
          ++ [TtsCall failing voice (inl e);
              StError ("An error occurred: " +:+ str_exn e);
              FileUnlink tmp]))
| run_rendered content p voice responses uuids audios :
    gate inp = true ->
    uploaded_file inp = Some content ->
    parse_pptx env content = inr p ->
    dict_lookup voice_options (selected_voice inp) = Some voice ->
    answered env (ClaudePPTScriptGenerator_init (api_key_input inp))
      (extract_slide_text p) responses ->
    length uuids = length (extract_slide_text p) ->
    length audios = length (extract_slide_text p) ->
    let tmp := tmp_pptx_path env w in
    let gen := ClaudePPTScriptGenerator_init (api_key_input inp) in
    let texts := extract_slide_text p in
    let scripts := zip_with script_of_response texts responses in
    let paths := audio_paths (gettempdir env) 1 uuids in
    run_shape env inp w
      (inr tt,
       after w
         (unlink_all paths
            (delete tmp (write_all paths audios (<[tmp := content]> (fs w)))))
         (FileWrite tmp content
          :: scripting_events gen (length texts) 0 texts responses
          ++ synth_events voice scripts paths audios
          ++ display_events scripts paths
          ++ FileUnlink tmp :: map FileUnlink paths)).

(** The progress fractions reported, as numerator and denominator. *)
Definition progress_of (ev : Event) : option (nat * nat) :=
  match ev with
  | StProgress num den => Some (num, den)
  | _ => None
  end.

Definition progress_reports (tr : list Event) : list (nat * nat) :=
  omap progress_of tr.

(** The notice [generate_slide_script] shows for an answer, if any. *)
Definition notice_of_response (response : exn + list ContentBlock)
  : option string :=
  match script_result response with
  | inl e => Some ("Error generating script with Claude: " +:+ str_exn e)
  | inr _ => None
  end.

(** An event that is not a request to the language model, or is one made
    with the credential [key]. *)
Definition uses_key (key : string) (ev : Event) : Prop :=
  match ev with
  | LlmCall k _ _ _ _ => k = key
  | _ => True
  end.

(** ** Sample data *)

Definition slide_intro : Slide :=
  {| shapes := [ {| text := Some "Intro" |}; {| text := None |};
                 {| text := Some "" |} ] |}.
Definition slide_picture : Slide := {| shapes := [ {| text := None |} ] |}.
Definition slide_end : Slide := {| shapes := [ {| text := Some "Conclusion" |} ] |}.
Definition deck3 : Presentation :=
  {| slides := [ slide_intro; slide_picture; slide_end ] |}.

(** A world with no file and no history. *)
Definition world0 : World := {| fs := ∅; trace := [] |}.

(** Inputs that open the gate, and inputs lacking the credential. *)
Definition inputs_go : Inputs :=
  {| api_key_input := "sk-test"; uploaded_file := Some "PK";
     selected_voice := "French"; process_button := true |}.

Definition inputs_no_key : Inputs :=
  {| api_key_input := ""; uploaded_file := Some "PK";
     selected_voice := "French"; process_button := true |}.

(** Collaborators that all answer. *)
Definition env_ok : Env :=
  {| messages_create := fun _ _ _ _ _ => inr [TextBlock "Welcome."];
     gTTS := fun _ s _ => inr ("mp3:" +:+ s);
     uuid4 := fun h => "id" +:+ str_int (length h);
     gettempdir := "/tmp";
     random_name := fun _ => "abcd1234";
     parse_pptx := fun _ => inr deck3 |}.

(** The language model is unreachable; everything else answers. *)
Definition env_llm_down : Env :=
  {| messages_create := fun _ _ _ _ _ => inl (Exception "401 unauthorized");
     gTTS := fun _ s _ => inr ("mp3:" +:+ s);
     uuid4 := fun h => "id" +:+ str_int (length h);
     gettempdir := "/tmp";
     random_name := fun _ => "abcd1234";
     parse_pptx := fun _ => inr deck3 |}.

(** The speech service answers for the first two scripts and refuses the
    third one. *)
Definition env_tts_partial : Env :=
  {| messages_create := fun _ _ _ _ _ => inr [TextBlock "Welcome."];
     gTTS := fun h s _ =>
       if bool_decide (length (tts_calls h) < 2)
       then inr ("mp3:" +:+ s)
       else inl (Exception "429 too many requests", None);
     uuid4 := fun h => "id" +:+ str_int (length h);
     gettempdir := "/tmp";
     random_name := fun _ => "abcd1234";
     parse_pptx := fun _ => inr deck3 |}.

(** The uploaded document has no slide. *)
Definition env_empty_deck : Env :=
  {| messages_create := fun _ _ _ _ _ => inr [TextBlock "Welcome."];
     gTTS := fun _ s _ => inr ("mp3:" +:+ s);
     uuid4 := fun h => "id" +:+ str_int (length h);
     gettempdir := "/tmp";
     random_name := fun _ => "abcd1234";
     parse_pptx := fun _ => inr {| slides := [] |} |}.

(** The world right after the uploaded document was stored. *)
Definition world_uploaded : World :=
  {| fs := {[ "/tmp/tmpabcd1234.pptx" := "PK" ]};
     trace := [FileWrite "/tmp/tmpabcd1234.pptx" "PK"] |}.

(** The speech service answers the first script and fails on the second
    after having opened its output file, which it leaves empty. *)
Definition env_tts_leaves_file : Env :=
  {| messages_create := fun _ _ _ _ _ => inr [TextBlock "Welcome."];
     gTTS := fun h s _ =>
       if bool_decide (length (tts_calls h) < 1)
       then inr ("mp3:" +:+ s)
       else inl (Exception "503 unavailable", Some "");
     uuid4 := fun h => "id" +:+ str_int (length h);
     gettempdir := "/tmp";
     random_name := fun _ => "abcd1234";
     parse_pptx := fun _ => inr deck3 |}.

(** The uploaded bytes are not a presentation. *)
Definition env_bad_document : Env :=
  {| messages_create := fun _ _ _ _ _ => inr [TextBlock "Welcome."];
     gTTS := fun _ s _ => inr ("mp3:" +:+ s);
     uuid4 := fun h => "id" +:+ str_int (length h);
     gettempdir := "/tmp";
     random_name := fun _ => "abcd1234";
     parse_pptx := fun _ => inl (Exception "Package not found") |}.

(** The language model answers the first and third slide only. *)
Definition env_llm_flaky : Env :=
  {| messages_create := fun h _ _ _ _ =>
       if bool_decide (length (llm_calls h) = 1)
       then inl (Exception "529 overloaded")
       else inr [TextBlock "Welcome."];
     gTTS := fun _ s _ => inr ("mp3:" +:+ s);
     uuid4 := fun h => "id" +:+ str_int (length h);
     gettempdir := "/tmp";
     random_name := fun _ => "abcd1234";
     parse_pptx := fun _ => inr deck3 |}.

(** A world in which an unrelated file already exists. *)
Definition world_busy : World :=
  {| fs := {[ "/tmp/notes.txt" := "keep" ]}; trace := [] |}.

(** A speech service that answers every text but the empty one. *)
Definition env_picky_tts : Env :=
  {| messages_create := fun _ _ _ _ _ => inr [TextBlock "Welcome."];
     gTTS := fun _ s _ =>
       if bool_decide (s = "")
       then inl (Exception "No text to speak", None)
       else inr ("mp3:" +:+ s);
     uuid4 := fun h => "id" +:+ str_int (length h);
     gettempdir := "/tmp";
     random_name := fun _ => "abcd1234";
     parse_pptx := fun _ => inr deck3 |}.

(** * Properties *)

(** ** Slide text extraction *)

Section ExtractorFacts.

Lemma collect_shapes_acc (shs : list Shape) (acc : list string) :
  fold_left collect_shape shs acc = acc ++ omap text shs.
Proof.
  revert acc; induction shs as [|sh shs IH]; intros acc; simpl.
  - by rewrite app_nil_r.
  - rewrite IH. unfold collect_shape.
    destruct (text sh) as [t|]; [|done].
    by rewrite <- app_assoc.
Qed.

Lemma collect_slides_acc (sls : list Slide) (acc : list string) :
  fold_left collect_slide sls acc = acc ++ map slide_text_spec sls.
Proof.
  revert acc; induction sls as [|sl sls IH]; intros acc; simpl.
  - by rewrite app_nil_r.
  - rewrite IH. unfold collect_slide.
    rewrite collect_shapes_acc. simpl.
    by rewrite <- app_assoc.
Qed.

Lemma extract_slide_text_eq_spec (p : Presentation) :
  extract_slide_text p = extract_spec p.
Proof. unfold extract_slide_text. by rewrite collect_slides_acc. Qed.

Lemma extract_slide_text_length (p : Presentation) :
  length (extract_slide_text p) = length (slides p).
Proof.
  rewrite extract_slide_text_eq_spec. unfold extract_spec.
  by rewrite length_map.
Qed.

Lemma omap_text_no_text (shs : list Shape) :
  Forall (fun sh => text sh = None) shs -> omap text shs = [].
Proof.
  induction 1 as [|sh shs Hsh _ IH]; simpl; [done|].
  by rewrite Hsh.
Qed.

End ExtractorFacts.

(** C4 — Extractor contract.  For a presentation with N slides the
    extractor returns exactly N strings, in slide order; the string of a
    slide is the single-space join of the texts of its text-bearing shapes
    (empty texts included, shapes without text skipped), and a slide without
    any text-bearing shape contributes the empty string at its index. *)
Theorem extract_slide_text_contract (p : Presentation) :
  extract_slide_text p = extract_spec p
  /\ length (extract_slide_text p) = length (slides p)
  /\ (forall (i : nat) (slide : Slide),
        slides p !! i = Some slide ->
        extract_slide_text p !! i
        = Some (str_join " " (omap text (shapes slide))))
  /\ (forall (i : nat) (slide : Slide),
        slides p !! i = Some slide ->
        Forall (fun sh => text sh = None) (shapes slide) ->
        extract_slide_text p !! i = Some "").
Proof.
  split; [apply extract_slide_text_eq_spec|].
  split; [apply extract_slide_text_length|].
  rewrite extract_slide_text_eq_spec. unfold extract_spec.
  split.
  - intros i slide Hi. by rewrite list_lookup_fmap, Hi.
  - intros i slide Hi Hnone. rewrite list_lookup_fmap, Hi. simpl.
    unfold slide_text_spec, shape_texts. by rewrite omap_text_no_text.
Qed.

Lemma extract_slide_text_contract_witness :
  extract_slide_text deck3 = ["Intro "; ""; "Conclusion"]
  /\ extract_slide_text deck3 !! 1 = Some "".
Proof.
  split; [reflexivity|].
  apply (proj2 (proj2 (proj2 (extract_slide_text_contract deck3)))
           1 slide_picture).
  - reflexivity.
  - repeat constructor.
Defined.

(** C9 — Extractor determinism.  Extraction is a pure function of the
    text-bearing shapes of the slides: it has no effect on the world, two
    applications to the same presentation inside a run return the same
    sequence, and two presentations whose slides carry the same texts in the
    same order yield the same sequence. *)
Theorem extract_slide_text_deterministic (p : Presentation) :
  (forall w : World,
     (do first <- ret (extract_slide_text p);
      do second <- ret (extract_slide_text p);
      ret (first, second)) w
     = (inr (extract_spec p, extract_spec p), w))
  /\ (forall q : Presentation,
        map shape_texts (slides p) = map shape_texts (slides q) ->
        extract_slide_text p = extract_slide_text q).
Proof.
  split.
  - intros w. unfold bind, ret. by rewrite extract_slide_text_eq_spec.
  - intros q Hpq. rewrite !extract_slide_text_eq_spec. unfold extract_spec.
    assert (Hmap : forall sls, map slide_text_spec sls
                     = map (str_join " ") (map shape_texts sls)).
    { intros sls. rewrite map_map. done. }
    by rewrite !Hmap, Hpq.
Qed.

Lemma extract_slide_text_deterministic_witness :
  extract_slide_text deck3
  = extract_slide_text
      {| slides := [ {| shapes := [ {| text := Some "Intro" |};
                                    {| text := Some "" |} ] |};
                     {| shapes := [] |};
                     slide_end ] |}.
Proof.
  apply (proj2 (extract_slide_text_deterministic deck3)).
  reflexivity.
Defined.

(** ** File names *)

Section NamingFacts.

Lemma string_of_uint_digits (d : Decimal.uint) :
  digits_only (NilEmpty.string_of_uint d) = true.
Proof. induction d; simpl; auto. Qed.

Lemma str_int_digits (n : nat) : digits_only (str_int n) = true.
Proof. apply string_of_uint_digits. Qed.

Lemma str_int_inj (n m : nat) : str_int n = str_int m -> n = m.
Proof.
  unfold str_int. intros Heq.
  apply Unsigned.to_uint_inj.
  assert (H : Some (Nat.to_uint n) = Some (Nat.to_uint m))
    by (rewrite <- !NilEmpty.usu; by rewrite Heq).
  by injection H.
Qed.

Lemma string_app_nil_l (s : string) : "" +:+ s = s.
Proof. reflexivity. Qed.

Lemma string_app_cons (c : ascii) (a s : string) :
  String c a +:+ s = String c (a +:+ s).
Proof. reflexivity. Qed.

Lemma string_app_length (a b : string) :
  String.length (a +:+ b) = String.length a + String.length b.
Proof.
  induction a as [|c a IH]; [done|].
  rewrite string_app_cons. simpl. by rewrite IH.
Qed.

Lemma string_app_inv_tail (a b s : string) :
  a +:+ s = b +:+ s -> a = b.
Proof.
  revert b; induction a as [|c a IH]; intros [|c' b] Heq;
    rewrite ?string_app_nil_l, ?string_app_cons in Heq.
  - done.
  - apply (f_equal String.length) in Heq. simpl in Heq.
    rewrite string_app_length in Heq. lia.
  - apply (f_equal String.length) in Heq. simpl in Heq.
    rewrite string_app_length in Heq. lia.
  - injection Heq as -> Heq. f_equal. by apply IH.
Qed.

(** A run of digits is delimited by the first non-digit after it. *)
Lemma digits_then_sep_inj (c : ascii) (d1 d2 a b : string) :
  is_digit c = false ->
  digits_only d1 = true -> digits_only d2 = true ->
  d1 +:+ String c a = d2 +:+ String c b ->
  d1 = d2 /\ a = b.
Proof.
  intros Hc. revert d2.
  induction d1 as [|x d1 IH]; intros [|y d2] H1 H2 Heq;
    rewrite ?string_app_nil_l, ?string_app_cons in Heq; simpl in H1, H2.
  - by injection Heq.
  - injection Heq as <- _. apply andb_prop in H2 as [H2 _]. congruence.
  - injection Heq as -> _. apply andb_prop in H1 as [H1 _]. congruence.
  - injection Heq as -> Heq.
    apply andb_prop in H1 as [_ H1]. apply andb_prop in H2 as [_ H2].
    destruct (IH d2 H1 H2 Heq) as [-> ->]. done.
Qed.

Lemma audio_filename_inj (i j : nat) (u v : string) :
  audio_filename i u = audio_filename j v -> i = j /\ u = v.
Proof.
  unfold audio_filename. intros Heq.
  apply (inj (String.app "slide_")) in Heq.
  apply (digits_then_sep_inj "_") in Heq as [Hij Huv];
    [|done|apply str_int_digits..].
  split; [by apply str_int_inj|].
  by apply string_app_inv_tail in Huv.
Qed.

Lemma audio_filename_relative (i : nat) (u : string) :
  startswith_char (audio_filename i u) "/" = false.
Proof. done. Qed.

Lemma os_path_join_relative (d f : string) :
  startswith_char f "/" = false ->
  exists sep, (sep = "" \/ sep = "/") /\ os_path_join d f = d +:+ sep +:+ f.
Proof.
  intros Hf. unfold os_path_join. rewrite Hf.
  destruct (bool_decide (d = "") || endswith_char d "/").
  - exists "". by split; [left|].
  - exists "/". by split; [right|].
Qed.

Lemma os_path_join_inj (d f g : string) :
  startswith_char f "/" = false -> startswith_char g "/" = false ->
  os_path_join d f = os_path_join d g -> f = g.
Proof.
  intros Hf Hg. unfold os_path_join. rewrite Hf, Hg.
  destruct (bool_decide (d = "") || endswith_char d "/"); intros Heq.
  - by apply (inj (String.app d)) in Heq.
  - apply (inj (String.app d)) in Heq. by apply (inj (String.app "/")) in Heq.
Qed.

Lemma audio_path_inj (d : string) (i j : nat) (u v : string) :
  os_path_join d (audio_filename i u) = os_path_join d (audio_filename j v) ->
  i = j /\ u = v.
Proof.
  intros Heq. apply audio_filename_inj.
  by apply os_path_join_inj in Heq.
Qed.

End NamingFacts.

(** ** The monad and the worlds *)

Section WorldFacts.

Lemma after_nil (w : World) : after w (fs w) [] = w.
Proof. destruct w. unfold after. simpl. by rewrite app_nil_r. Qed.

Lemma after_after (w : World) f1 f2 (evs1 evs2 : list Event) :
  after (after w f1 evs1) f2 evs2 = after w f2 (evs1 ++ evs2).
Proof. unfold after. simpl. by rewrite app_assoc. Qed.

Lemma fs_after (w : World) f evs : fs (after w f evs) = f.
Proof. done. Qed.

Lemma trace_after (w : World) f evs : trace (after w f evs) = trace w ++ evs.
Proof. done. Qed.

Lemma emit_after (ev : Event) (w : World) :
  emit ev w = (inr tt, after w (fs w) [ev]).
Proof. done. Qed.

Lemma write_file_after (path content : string) (w : World) :
  write_file path content w
  = (inr tt, after w (<[path := content]> (fs w)) [FileWrite path content]).
Proof. done. Qed.

Lemma for_acc_cons {A B} (body : B -> A -> M B) (acc : B) (x : A)
    (xs : list A) (w : World) :
  for_acc body acc (x :: xs) w
  = match body acc x w with
    | (inr acc', w') => for_acc body acc' xs w'
    | (inl e, w') => (inl e, w')
    end.
Proof. reflexivity. Qed.

Lemma for_each_cons {A} (body : A -> M unit) (x : A) (xs : list A)
    (w : World) :
  for_each body (x :: xs) w
  = match body x w with
    | (inr _, w') => for_each body xs w'
    | (inl e, w') => (inl e, w')
    end.
Proof. reflexivity. Qed.

Lemma enumerate_cons {A} (x : A) (xs : list A) (k : nat) :
  enumerate (x :: xs) k = (k, x) :: enumerate xs (S k).
Proof. reflexivity. Qed.

Lemma os_unlink_present (path : string) (w : World) :
  is_Some (fs w !! path) ->
  os_unlink path w = (inr tt, after w (delete path (fs w)) [FileUnlink path]).
Proof. intros [x Hx]. unfold os_unlink. by rewrite Hx. Qed.

End WorldFacts.

(** ** Script generation *)

Section ScriptFacts.
Context (env : Env).

Lemma generate_slide_script_spec (gen : ClaudePPTScriptGenerator)
    (slide_text : string) (w : World) :
  generate_slide_script env gen slide_text w
  = let response :=
      messages_create env (trace w) (api_key (client gen)) (model gen) 300
        (prompt slide_text) in
    (inr (script_of_response slide_text response),
     after w (fs w) (script_events gen slide_text response)).
Proof.
  unfold generate_slide_script, try_except, bind, client_messages_create,
    script_of_response, script_events, after. simpl.
  destruct (messages_create env (trace w) (api_key (client gen)) (model gen)
              300 (prompt slide_text)) as [e|[|[t|] blocks]]; simpl;
    by rewrite <- ?app_assoc.
Qed.

Lemma scripting_body_spec (gen : ClaudePPTScriptGenerator) (n i : nat)
    (scripts : list string) (slide_text : string) (w : World) :
  scripting_body env gen n scripts (i, slide_text) w
  = let response :=
      messages_create env (trace w) (api_key (client gen)) (model gen) 300
        (prompt slide_text) in
    (inr (scripts ++ [script_of_response slide_text response]),
     after w (fs w)
       (script_events gen slide_text response ++ [StProgress (i + 1) n])).
Proof.
  unfold scripting_body, bind. rewrite generate_slide_script_spec. cbv zeta.
  unfold st_progress. by rewrite emit_after, after_after.
Qed.

Lemma scripting_loop_acc (gen : ClaudePPTScriptGenerator) (n : nat)
    (texts : list string) (k : nat) (acc : list string) (w : World) :
  exists responses,
    answered env gen texts responses
    /\ for_acc (scripting_body env gen n) acc (enumerate texts k) w
       = (inr (acc ++ zip_with script_of_response texts responses),
          after w (fs w) (scripting_events gen n k texts responses)).
Proof.
  revert k acc w. induction texts as [|t texts IH]; intros k acc w.
  - exists []. split; [constructor|]. simpl. unfold ret.
    by rewrite app_nil_r, after_nil.
  - rewrite enumerate_cons, for_acc_cons, scripting_body_spec. cbv zeta.
    set (r := messages_create env (trace w) _ _ _ _).
    destruct (IH (S k) (acc ++ [script_of_response t r])
                (after w (fs w)
                   (script_events gen t r ++ [StProgress (k + 1) n])))
      as (responses & Hans & Hrun).
    exists (r :: responses).
    split; [constructor; [by exists (trace w)|done]|].
    rewrite Hrun, after_after, fs_after. simpl.
    by rewrite <- !app_assoc.
Qed.

Lemma scripting_loop_spec (gen : ClaudePPTScriptGenerator)
    (texts : list string) (w : World) :
  exists responses,
    answered env gen texts responses
    /\ scripting_loop env gen texts w
       = (inr (zip_with script_of_response texts responses),
          after w (fs w)
            (scripting_events gen (length texts) 0 texts responses)).
Proof. apply (scripting_loop_acc gen (length texts) texts 0 [] w). Qed.

End ScriptFacts.

(** ** Audio synthesis *)

Section AudioFacts.
Context (env : Env).

Lemma generate_audio_body_spec (voice : string) (acc : list string) (i : nat)
    (script : string) (w : World) :
  generate_audio_body env voice acc (i, script) w
  = let path :=
      os_path_join (gettempdir env) (audio_filename i (uuid4 env (trace w))) in
    match gTTS env (trace w) script voice with
    | inr audio =>
        (inr (acc ++ [path]),
         after w (<[path := audio]> (fs w))
           [TtsCall script voice (inr audio); FileWrite path audio])
    | inl (e, partial) =>
        (inl e,
         after w (leave_partial path partial (fs w))
           (partial_events path partial ++ [TtsCall script voice (inl e)]))
    end.
Proof.
  unfold generate_audio_body, bind, uuid4_str, gTTS_save. simpl.
  destruct (gTTS env (trace w) script voice) as [[e [bytes|]]|audio].
  - unfold after. simpl. by rewrite <- app_assoc.
  - done.
  - rewrite write_file_after. unfold ret, after. simpl.
    by rewrite <- app_assoc.
Qed.

(** The loop of [generate_audio] either synthesizes every script, or stops
    at the first script the service refuses, having written the files of
    the scripts before it. *)
Lemma generate_audio_acc (voice : string) (scripts : list string) (k : nat)
    (acc : list string) (w : World) :
  (exists uuids audios,
     length uuids = length scripts /\ length audios = length scripts
     /\ Forall (fun u => exists h, u = uuid4 env h) uuids
     /\ for_acc (generate_audio_body env voice) acc (enumerate scripts k) w
        = (inr (acc ++ audio_paths (gettempdir env) k uuids),
           after w
             (write_all (audio_paths (gettempdir env) k uuids) audios (fs w))
             (synth_events voice scripts
                (audio_paths (gettempdir env) k uuids) audios)))
  \/ (exists ready failing rest e uuids audios fpath partial,
        scripts = ready ++ failing :: rest
        /\ length uuids = length ready /\ length audios = length ready
        /\ (exists h, gTTS env h failing voice = inl (e, partial))
        /\ for_acc (generate_audio_body env voice) acc (enumerate scripts k) w
           = (inl e,
              after w
                (leave_partial fpath partial
                   (write_all (audio_paths (gettempdir env) k uuids) audios
                      (fs w)))
                (synth_events voice ready
                   (audio_paths (gettempdir env) k uuids) audios
                 ++ partial_events fpath partial
                 ++ [TtsCall failing voice (inl e)]))).
Proof.
  revert k acc w. induction scripts as [|s scripts IH]; intros k acc w.
  - left. exists [], []. repeat split; [constructor|]. simpl. unfold ret.
    by rewrite app_nil_r, after_nil.
  - rewrite enumerate_cons, for_acc_cons, generate_audio_body_spec. cbv zeta.
    set (u := uuid4 env (trace w)).
    set (path := os_path_join (gettempdir env) (audio_filename k u)).
    destruct (gTTS env (trace w) s voice) as [[e partial]|audio] eqn:Htts.
    + right. exists [], s, scripts, e, [], [], path, partial.
      repeat split; try done. by exists (trace w).
    + set (w1 := after w _ _).
      destruct (IH (S k) (acc ++ [path]) w1)
        as [(uuids & audios & Hu & Ha & Hids & Hrun)
           |(ready & failing & rest & e & uuids & audios & fpath & partial
             & Hsplit & Hu & Ha & Hfail & Hrun)].
      * left. exists (u :: uuids), (audio :: audios).
        split; [simpl; by rewrite Hu|]. split; [simpl; by rewrite Ha|].
        split; [constructor; [by exists (trace w)|done]|].
        rewrite Hrun. unfold w1. rewrite after_after, fs_after. simpl.
        fold path. by rewrite <- app_assoc.
      * right. exists (s :: ready), failing, rest, e, (u :: uuids),
          (audio :: audios), fpath, partial.
        split; [by rewrite Hsplit|].
        split; [simpl; by rewrite Hu|]. split; [simpl; by rewrite Ha|].
        split; [done|].
        rewrite Hrun. unfold w1. by rewrite after_after, fs_after.
Qed.

Lemma audio_paths_length (d : string) (k : nat) (uuids : list string) :
  length (audio_paths d k uuids) = length uuids.
Proof.
  revert k; induction uuids as [|u uuids IH]; intros k; simpl; [done|].
  by rewrite IH.
Qed.

Lemma audio_paths_lookup (d : string) (k : nat) (uuids : list string)
    (i : nat) (u : string) :
  uuids !! i = Some u ->
  audio_paths d k uuids !! i = Some (os_path_join d (audio_filename (k + i) u)).
Proof.
  revert k i; induction uuids as [|u' uuids IH]; intros k [|i] Hi;
    simplify_eq/=.
  - by rewrite Nat.add_0_r.
  - rewrite (IH (S k) i Hi). do 3 f_equal. lia.
Qed.

Lemma audio_paths_elem (d : string) (k : nat) (uuids : list string)
    (p : string) :
  p ∈ audio_paths d k uuids ->
  exists i u, k <= i /\ p = os_path_join d (audio_filename i u).
Proof.
  revert k; induction uuids as [|u uuids IH]; intros k; simpl.
  - by intros ?%elem_of_nil.
  - intros [->|Hin]%elem_of_cons.
    + exists k, u. by split.
    + destruct (IH (S k) Hin) as (i & v & Hle & ->).
      exists i, v. split; [lia|done].
Qed.

(** Within one call no two paths coincide, whatever identifiers are drawn:
    the index prefixes alone tell them apart. *)
Lemma audio_paths_NoDup (d : string) (k : nat) (uuids : list string) :
  NoDup (audio_paths d k uuids).
Proof.
  revert k; induction uuids as [|u uuids IH]; intros k; simpl.
  - constructor.
  - constructor; [|apply IH].
    intros (i & v & Hle & Heq)%audio_paths_elem.
    apply audio_path_inj in Heq as [-> _]. lia.
Qed.

Lemma audio_path_not_tmp (d : string) (i : nat) (u name suffix : string) :
  os_path_join d (audio_filename i u)
  <> os_path_join d ("tmp" +:+ name +:+ suffix).
Proof.
  intros Heq. by apply os_path_join_inj in Heq.
Qed.

Lemma write_all_lookup_other (paths audios : list string)
    (files : gmap string string) (q : string) :
  q ∉ paths -> write_all paths audios files !! q = files !! q.
Proof.
  revert audios files; induction paths as [|p paths IH];
    intros [|a audios] files Hq; simpl; try done.
  apply not_elem_of_cons in Hq as [Hne Hq].
  rewrite IH by done. by rewrite lookup_insert_ne.
Qed.

Lemma write_all_lookup (paths audios : list string)
    (files : gmap string string) (i : nat) (p a : string) :
  NoDup paths ->
  paths !! i = Some p -> audios !! i = Some a ->
  write_all paths audios files !! p = Some a.
Proof.
  revert audios files i; induction paths as [|p' paths IH];
    intros [|a' audios] files [|i] Hnd Hp Ha; simplify_eq/=.
  - apply NoDup_cons in Hnd as [Hnotin _].
    rewrite write_all_lookup_other by done. by rewrite lookup_insert_eq.
  - apply NoDup_cons in Hnd as [_ Hnd]. by eapply IH.
Qed.

Lemma write_all_preserves (paths audios : list string)
    (files : gmap string string) (q : string) :
  is_Some (files !! q) -> is_Some (write_all paths audios files !! q).
Proof.
  revert audios files; induction paths as [|p paths IH];
    intros [|a audios] files Hq; simpl; try done.
  apply IH. destruct (decide (p = q)) as [->|Hne].
  - rewrite lookup_insert_eq. by eexists.
  - by rewrite lookup_insert_ne.
Qed.

Lemma leave_partial_preserves (path : string) (partial : option string)
    (files : gmap string string) (q : string) :
  is_Some (files !! q) -> is_Some (leave_partial path partial files !! q).
Proof.
  destruct partial as [bytes|]; [|done]. simpl.
  destruct (decide (path = q)) as [->|Hne].
  - rewrite lookup_insert_eq. by eexists.
  - by rewrite lookup_insert_ne.
Qed.

Lemma write_all_present (paths audios : list string)
    (files : gmap string string) (p : string) :
  length paths = length audios ->
  p ∈ paths -> is_Some (write_all paths audios files !! p).
Proof.
  revert audios files; induction paths as [|p' paths IH];
    intros [|a audios] files Hlen Hin; simplify_eq/=.
  - by apply elem_of_nil in Hin.
  - apply elem_of_cons in Hin as [->|Hin].
    + apply write_all_preserves. rewrite lookup_insert_eq. by eexists.
    + by apply IH.
Qed.

End AudioFacts.

(** ** Display and cleanup *)

Section DisplayCleanupFacts.

Lemma dict_get_spec (d : list (string * string)) (key : string) (w : World) :
  dict_get d key w
  = match dict_lookup d key with
    | Some v => (inr v, w)
    | None => (inl (KeyError key), w)
    end.
Proof.
  induction d as [|[k v] d IH]; simpl; [done|].
  destruct (bool_decide (k = key)); [done|apply IH].
Qed.

Lemma main_display_body_run (audio_files : list string) (i : nat)
    (script path : string) (w : World) :
  audio_files !! (i - 1) = Some path ->
  main_display_body audio_files (i, script) w
  = (inr tt,
     after w (fs w)
       [StSubheader ("Slide " +:+ str_int i); StWrite script;
        StAudio path "audio/mp3"]).
Proof.
  intros Hget.
  unfold main_display_body, bind, st_subheader, st_write, list_get.
  rewrite !emit_after, fs_after, Hget.
  unfold ret, st_audio. by rewrite emit_after, !after_after, fs_after.
Qed.

Lemma display_rows_run (audio_files : list string) (scripts : list string)
    (k : nat) (shown rest : list string) (w : World) :
  audio_files = shown ++ rest ->
  S (length shown) = k ->
  length rest = length scripts ->
  for_each (main_display_body audio_files) (enumerate scripts k) w
  = (inr tt, after w (fs w) (display_rows k scripts rest)).
Proof.
  revert k shown rest w.
  induction scripts as [|s scripts IH]; intros k shown [|p rest] w Hsplit Hk Hlen;
    simpl in Hlen; try discriminate; subst k audio_files.
  - simpl. unfold ret. by rewrite after_nil.
  - rewrite enumerate_cons, for_each_cons.
    rewrite (main_display_body_run _ _ _ p).
    + rewrite (IH (S (S (length shown))) (shown ++ [p]) rest).
      * by rewrite after_after, fs_after.
      * by rewrite <- app_assoc.
      * rewrite length_app. simpl. lia.
      * by injection Hlen.
    + replace (S (length shown) - 1) with (length shown + 0) by lia.
      by rewrite lookup_app_r, Nat.add_comm, Nat.add_sub by lia.
Qed.

Lemma main_display_run (scripts audio_files : list string) (w : World) :
  length audio_files = length scripts ->
  main_display scripts audio_files w
  = (inr tt, after w (fs w) (display_events scripts audio_files)).
Proof.
  intros Hlen. unfold main_display, bind, st_header. rewrite emit_after.
  rewrite (display_rows_run audio_files scripts 1 [] audio_files) by done.
  by rewrite after_after, fs_after.
Qed.

Lemma unlink_all_lookup_absent (paths : list string)
    (files : gmap string string) (q : string) :
  files !! q = None -> unlink_all paths files !! q = None.
Proof.
  revert files; induction paths as [|p paths IH]; intros files Hq; simpl;
    [done|].
  apply IH. destruct (decide (p = q)) as [->|Hne].
  - by rewrite lookup_delete_eq.
  - by rewrite lookup_delete_ne.
Qed.

Lemma unlink_all_lookup (paths : list string) (files : gmap string string)
    (q : string) :
  q ∈ paths -> unlink_all paths files !! q = None.
Proof.
  revert files; induction paths as [|p paths IH]; intros files Hq; simpl.
  - by apply elem_of_nil in Hq.
  - destruct (decide (q = p)) as [->|Hne].
    + apply unlink_all_lookup_absent. by rewrite lookup_delete_eq.
    + apply IH. apply elem_of_cons in Hq as [?|?]; done.
Qed.

Lemma unlink_loop_run (paths : list string) (w : World) :
  NoDup paths ->
  (forall p, p ∈ paths -> is_Some (fs w !! p)) ->
  for_each os_unlink paths w
  = (inr tt, after w (unlink_all paths (fs w)) (map FileUnlink paths)).
Proof.
  revert w; induction paths as [|p paths IH]; intros w Hnd Hall; simpl.
  - unfold ret. by rewrite after_nil.
  - apply NoDup_cons in Hnd as [Hnotin Hnd].
    unfold bind. rewrite os_unlink_present by (apply Hall; left).
    rewrite IH; [by rewrite after_after, fs_after|done|].
    intros q Hq. rewrite fs_after, lookup_delete_ne.
    + apply Hall. by right.
    + by intros ->.
Qed.

Lemma main_finally_bound (tmp : string) (audio_files : list string)
    (w : World) :
  is_Some (fs w !! tmp) ->
  NoDup audio_files ->
  tmp ∉ audio_files ->
  (forall p, p ∈ audio_files -> is_Some (fs w !! p)) ->
  main_finally tmp (Some audio_files) w
  = (inr tt,
     after w (unlink_all audio_files (delete tmp (fs w)))
       (FileUnlink tmp :: map FileUnlink audio_files)).
Proof.
  intros Htmp Hnd Hnotin Hall. unfold main_finally, bind.
  rewrite os_unlink_present by done.
  rewrite unlink_loop_run; [by rewrite after_after, fs_after|done|].
  intros p Hp. rewrite fs_after, lookup_delete_ne; [by apply Hall|].
  by intros ->.
Qed.

Lemma main_finally_unbound (tmp : string) (w : World) :
  is_Some (fs w !! tmp) ->
  main_finally tmp None w
  = (inr tt, after w (delete tmp (fs w)) [FileUnlink tmp]).
Proof.
  intros Htmp. unfold main_finally, bind.
  by rewrite os_unlink_present by done.
Qed.

End DisplayCleanupFacts.

(** ** The orchestrator *)

Section MainFacts.
Context (env : Env).

Lemma NamedTemporaryFile_write_spec (suffix content : string) (w : World) :
  NamedTemporaryFile_write env suffix content w
  = let name :=
      os_path_join (gettempdir env)
        ("tmp" +:+ random_name env (trace w) +:+ suffix) in
    (inr name, after w (<[name := content]> (fs w)) [FileWrite name content]).
Proof. reflexivity. Qed.

Lemma generate_audio_cases (voice : string) (scripts : list string)
    (w : World) :
  (exists uuids audios,
     length uuids = length scripts /\ length audios = length scripts
     /\ Forall (fun u => exists h, u = uuid4 env h) uuids
     /\ generate_audio env scripts voice w
        = (inr (audio_paths (gettempdir env) 1 uuids),
           after w
             (write_all (audio_paths (gettempdir env) 1 uuids) audios (fs w))
             (synth_events voice scripts
                (audio_paths (gettempdir env) 1 uuids) audios)))
  \/ (exists ready failing rest e uuids audios fpath partial,
        scripts = ready ++ failing :: rest
        /\ length uuids = length ready /\ length audios = length ready
        /\ (exists h, gTTS env h failing voice = inl (e, partial))
        /\ generate_audio env scripts voice w
           = (inl e,
              after w
                (leave_partial fpath partial
                   (write_all (audio_paths (gettempdir env) 1 uuids) audios
                      (fs w)))
                (synth_events voice ready
                   (audio_paths (gettempdir env) 1 uuids) audios
                 ++ partial_events fpath partial
                 ++ [TtsCall failing voice (inl e)]))).
Proof. apply (generate_audio_acc env voice scripts 1 [] w). Qed.

Lemma gate_upload (inp : Inputs) :
  gate inp = true -> exists content, uploaded_file inp = Some content.
Proof.
  unfold gate. intros [_ Hup%bool_decide_eq_true]%andb_prop.
  destruct (uploaded_file inp) as [content|]; [by exists content|done].
Qed.

Lemma main_pipeline_load (gen : ClaudePPTScriptGenerator)
    (tmp voice_key content : string) (w : World) :
  fs w !! tmp = Some content ->
  main_pipeline env gen tmp voice_key w
  = match parse_pptx env content with
    | inl e => (inl e, w)
    | inr p =>
        match scripting_loop env gen (extract_slide_text p) w with
        | (inr scripts, w2) =>
            match dict_lookup voice_options voice_key with
            | None => (inl (KeyError voice_key), w2)
            | Some voice =>
                match generate_audio env scripts voice w2 with
                | (inr audio_files, w3) => (inr (scripts, audio_files), w3)
                | (inl e, w3) => (inl e, w3)
                end
            end
        | (inl e, w2) => (inl e, w2)
        end
    end.
Proof.
  intros Hfile. unfold main_pipeline, bind at 1, load_presentation.
  rewrite Hfile. destruct (parse_pptx env content) as [e|p]; [done|].
  unfold bind at 1.
  destruct (scripting_loop env gen (extract_slide_text p) w)
    as [[e|scripts] w2]; [done|].
  unfold bind at 1. rewrite dict_get_spec.
  destruct (dict_lookup voice_options voice_key) as [voice|]; [|done].
  unfold bind.
  by destruct (generate_audio env scripts voice w2) as [[e|audio_files] w3].
Qed.

End MainFacts.

Section RunShape.
Context (env : Env).

Lemma tmp_not_audio_path (w : World) (k : nat) (uuids : list string) :
  tmp_pptx_path env w ∉ audio_paths (gettempdir env) k uuids.
Proof.
  intros (i & u & _ & Heq)%audio_paths_elem.
  symmetry in Heq. by apply audio_path_not_tmp in Heq.
Qed.

Lemma main_gate_open (inp : Inputs) (content : string) (w : World) :
  gate inp = true ->
  uploaded_file inp = Some content ->
  main env inp w
  = let tmp := tmp_pptx_path env w in
    let w1 := after w (<[tmp := content]> (fs w)) [FileWrite tmp content] in
    match main_pipeline env (ClaudePPTScriptGenerator_init (api_key_input inp))
            tmp (selected_voice inp) w1 with
    | (inr (scripts, audio_files), w2) =>
        (do _ <- try_except (main_display scripts audio_files) main_except;
         main_finally tmp (Some audio_files)) w2
    | (inl e, w2) =>
        (do _ <- main_except e; main_finally tmp None) w2
    end.
Proof.
  intros Hgate Hup. unfold main. rewrite Hgate, Hup. simpl.
  unfold bind at 1. by rewrite NamedTemporaryFile_write_spec.
Qed.

(** Every execution of [main] has one of the five shapes. *)
Lemma main_run_shape (inp : Inputs) (w : World) :
  run_shape env inp w (main env inp w).
Proof.
  destruct (gate inp) eqn:Hgate.
  2:{ unfold main. rewrite Hgate. by apply run_idle. }
  destruct (gate_upload inp Hgate) as [content Hup].
  rewrite (main_gate_open inp content w Hgate Hup). cbv zeta.
  set (tmp := tmp_pptx_path env w).
  set (gen := ClaudePPTScriptGenerator_init (api_key_input inp)).
  set (w1 := after w (<[tmp := content]> (fs w)) [FileWrite tmp content]).
  assert (Hfile : fs w1 !! tmp = Some content)
    by (unfold w1; rewrite fs_after; apply lookup_insert_eq).
  pose proof (main_pipeline_load env gen tmp (selected_voice inp) content w1
                Hfile) as Hpipe.
  rewrite Hpipe.
  destruct (parse_pptx env content) as [e|p] eqn:Hparse.
  { (* the document cannot be parsed *)
    unfold bind, main_except, st_error. rewrite emit_after.
    rewrite main_finally_unbound
      by (rewrite fs_after, Hfile; by eexists).
    unfold w1. rewrite !after_after, !fs_after. simpl.
    by apply (run_parse_error env inp w content e). }
  destruct (scripting_loop_spec env gen (extract_slide_text p) w1)
    as (responses & Hans & Hloop).
  rewrite Hloop in Hpipe |- *.
  assert (Hlen : length responses = length (extract_slide_text p))
    by (symmetry; apply (Forall2_length _ _ _ Hans)).
  set (texts := extract_slide_text p) in *.
  set (scripts := zip_with script_of_response texts responses).
  set (w2 := after w1 _ _) in *.
  assert (Hfile2 : fs w2 !! tmp = Some content) by done.
  destruct (dict_lookup voice_options (selected_voice inp)) as [voice|] eqn:Hvoice.
  2:{ (* unknown voice key *)
    unfold bind, main_except, st_error. rewrite emit_after.
    rewrite main_finally_unbound
      by (rewrite fs_after, Hfile2; by eexists).
    unfold w2, w1. rewrite !after_after, !fs_after. simpl.
    by apply (run_voice_error env inp w content p responses). }
  destruct (generate_audio_cases env voice scripts w2)
    as [(uuids & audios & Hu & Ha & _ & ->)
       |(ready & failing & rest & e & uuids & audios & fpath & partial
         & Hsplit & Hu & Ha & Hfail & Hgen)].
  - (* everything is synthesized and displayed *)
    set (paths := audio_paths (gettempdir env) 1 uuids).
    assert (Hscripts : length scripts = length texts).
    { unfold scripts. rewrite length_zip_with. lia. }
    assert (Hpaths : length paths = length scripts).
    { unfold paths. rewrite audio_paths_length. lia. }
    unfold bind at 1, try_except.
    rewrite main_display_run by done.
    rewrite main_finally_bound.
    + unfold w2, w1. rewrite !after_after, !fs_after. simpl.
      rewrite <- ?app_assoc.
      apply (run_rendered env inp w content p voice responses uuids audios);
        try done; fold texts; lia.
    + rewrite !fs_after. apply write_all_preserves.
      rewrite Hfile2. by eexists.
    + apply audio_paths_NoDup.
    + apply tmp_not_audio_path.
    + intros q Hq. rewrite !fs_after.
      apply write_all_present; [|done]. lia.
  - (* the speech service refuses a script *)
    fold scripts in Hpipe. rewrite Hgen in Hpipe |- *.
    apply (f_equal fst) in Hpipe. cbn [fst] in Hpipe.
    unfold bind, main_except, st_error. rewrite emit_after.
    rewrite main_finally_unbound.
    + unfold w2, w1. rewrite !after_after, !fs_after.
      rewrite <- ?app_assoc.
      by apply (run_tts_error env inp w content p voice responses ready
                  failing rest e uuids audios fpath partial).
    + rewrite !fs_after. apply leave_partial_preserves, write_all_preserves.
      rewrite Hfile2. by eexists.
Qed.

End RunShape.

(** ** Projections of the traces *)

Section TraceFacts.

Lemma llm_calls_app (a b : list Event) :
  llm_calls (a ++ b) = llm_calls a ++ llm_calls b.
Proof. apply omap_app. Qed.

Lemma tts_calls_app (a b : list Event) :
  tts_calls (a ++ b) = tts_calls a ++ tts_calls b.
Proof. apply omap_app. Qed.

Lemma files_written_app (a b : list Event) :
  files_written (a ++ b) = files_written a ++ files_written b.
Proof. apply omap_app. Qed.

Lemma errors_shown_app (a b : list Event) :
  errors_shown (a ++ b) = errors_shown a ++ errors_shown b.
Proof. apply omap_app. Qed.

Lemma displayed_app (a b : list Event) :
  displayed (a ++ b) = displayed a ++ displayed b.
Proof. apply List.filter_app. Qed.

Lemma files_unlinked_app (a b : list Event) :
  files_unlinked (a ++ b) = files_unlinked a ++ files_unlinked b.
Proof. apply omap_app. Qed.

Lemma llm_calls_cons (ev : Event) (l : list Event) :
  llm_calls (ev :: l) = option_list (llm_call_of ev) ++ llm_calls l.
Proof. unfold llm_calls. simpl. by destruct (llm_call_of ev). Qed.

Lemma tts_calls_cons (ev : Event) (l : list Event) :
  tts_calls (ev :: l) = option_list (tts_call_of ev) ++ tts_calls l.
Proof. unfold tts_calls. simpl. by destruct (tts_call_of ev). Qed.

Lemma files_written_cons (ev : Event) (l : list Event) :
  files_written (ev :: l) = option_list (written_of ev) ++ files_written l.
Proof. unfold files_written. simpl. by destruct (written_of ev). Qed.

Lemma files_unlinked_cons (ev : Event) (l : list Event) :
  files_unlinked (ev :: l) = option_list (unlinked_of ev) ++ files_unlinked l.
Proof. unfold files_unlinked. simpl. by destruct (unlinked_of ev). Qed.

Lemma errors_shown_cons (ev : Event) (l : list Event) :
  errors_shown (ev :: l) = option_list (error_of ev) ++ errors_shown l.
Proof. unfold errors_shown. simpl. by destruct (error_of ev). Qed.

Lemma displayed_cons (ev : Event) (l : list Event) :
  displayed (ev :: l) = (if is_display ev then [ev] else []) ++ displayed l.
Proof. unfold displayed. simpl. by destruct (is_display ev). Qed.

Lemma script_events_llm (gen : ClaudePPTScriptGenerator) (t : string)
    (r : exn + list ContentBlock) :
  llm_calls (script_events gen t r) = [(model gen, 300, prompt t, r)].
Proof. unfold script_events. by destruct (script_result r). Qed.

Lemma script_events_other (gen : ClaudePPTScriptGenerator) (t : string)
    (r : exn + list ContentBlock) :
  tts_calls (script_events gen t r) = []
  /\ files_written (script_events gen t r) = []
  /\ displayed (script_events gen t r) = [].
Proof. unfold script_events. by destruct (script_result r). Qed.

Lemma scripting_events_cons (gen : ClaudePPTScriptGenerator) (n k : nat)
    (t : string) (texts : list string) (r : exn + list ContentBlock)
    (responses : list (exn + list ContentBlock)) :
  scripting_events gen n k (t :: texts) (r :: responses)
  = script_events gen t r ++ [StProgress (k + 1) n]
    ++ scripting_events gen n (S k) texts responses.
Proof. reflexivity. Qed.

Lemma scripting_events_llm (gen : ClaudePPTScriptGenerator) (n k : nat)
    (texts : list string) (responses : list (exn + list ContentBlock)) :
  llm_calls (scripting_events gen n k texts responses)
  = zip_with (fun t r => (model gen, 300, prompt t, r)) texts responses.
Proof.
  revert k responses; induction texts as [|t texts IH];
    intros k [|r responses]; try done.
  rewrite scripting_events_cons, !llm_calls_app, script_events_llm, IH.
  done.
Qed.

Lemma scripting_events_other (gen : ClaudePPTScriptGenerator) (n k : nat)
    (texts : list string) (responses : list (exn + list ContentBlock)) :
  tts_calls (scripting_events gen n k texts responses) = []
  /\ files_written (scripting_events gen n k texts responses) = []
  /\ displayed (scripting_events gen n k texts responses) = [].
Proof.
  revert k responses; induction texts as [|t texts IH];
    intros k [|r responses]; try done.
  rewrite scripting_events_cons, !tts_calls_app, !files_written_app,
    !displayed_app.
  destruct (script_events_other gen t r) as (-> & -> & ->).
  destruct (IH (S k) responses) as (-> & -> & ->). done.
Qed.

Lemma synth_events_tts (voice : string) (scripts paths audios : list string) :
  length paths = length scripts -> length audios = length scripts ->
  tts_calls (synth_events voice scripts paths audios)
  = zip_with (fun s a => (s, voice, inr a)) scripts audios.
Proof.
  revert paths audios; induction scripts as [|s scripts IH];
    intros [|p paths] [|a audios] Hp Ha; simplify_eq/=; try done.
  fold (tts_calls (synth_events voice scripts paths audios)).
  by rewrite IH.
Qed.

Lemma synth_events_written (voice : string) (scripts paths audios : list string) :
  length paths = length scripts -> length audios = length scripts ->
  files_written (synth_events voice scripts paths audios) = paths.
Proof.
  revert paths audios; induction scripts as [|s scripts IH];
    intros [|p paths] [|a audios] Hp Ha; simplify_eq/=; try done.
  fold (files_written (synth_events voice scripts paths audios)).
  by rewrite IH.
Qed.

Lemma synth_events_other (voice : string) (scripts paths audios : list string) :
  llm_calls (synth_events voice scripts paths audios) = []
  /\ displayed (synth_events voice scripts paths audios) = []
  /\ errors_shown (synth_events voice scripts paths audios) = [].
Proof.
  revert paths audios; induction scripts as [|s scripts IH];
    intros [|p paths] [|a audios]; try done.
  apply IH.
Qed.

Lemma partial_events_projections (path : string) (partial : option string) :
  llm_calls (partial_events path partial) = []
  /\ tts_calls (partial_events path partial) = []
  /\ displayed (partial_events path partial) = []
  /\ errors_shown (partial_events path partial) = [].
Proof. by destruct partial. Qed.

Lemma display_rows_projections (k : nat) (scripts paths : list string) :
  displayed (display_rows k scripts paths) = display_rows k scripts paths
  /\ llm_calls (display_rows k scripts paths) = []
  /\ tts_calls (display_rows k scripts paths) = []
  /\ files_written (display_rows k scripts paths) = []
  /\ errors_shown (display_rows k scripts paths) = [].
Proof.
  revert k paths; induction scripts as [|s scripts IH];
    intros k [|p paths]; try done.
  destruct (IH (S k) paths) as (Hd & Hl & Ht & Hf & He).
  repeat split; try done. simpl.
  fold (displayed (display_rows (S k) scripts paths)). by rewrite Hd.
Qed.

Lemma unlinks_projections (paths : list string) :
  displayed (map FileUnlink paths) = []
  /\ llm_calls (map FileUnlink paths) = []
  /\ tts_calls (map FileUnlink paths) = []
  /\ files_written (map FileUnlink paths) = []
  /\ errors_shown (map FileUnlink paths) = []
  /\ files_unlinked (map FileUnlink paths) = paths.
Proof.
  induction paths as [|p paths (Hd & Hl & Ht & Hf & He & Hu)]; [done|].
  repeat split; try done. simpl.
  fold (files_unlinked (map FileUnlink paths)). by rewrite Hu.
Qed.

End TraceFacts.

(** * The claims *)

Section NewEvents.

Lemma new_events_after (w : World) f (evs : list Event) :
  new_events w (after w f evs) = evs.
Proof. unfold new_events. rewrite trace_after. apply drop_app_length. Qed.

Lemma new_events_same (w : World) : new_events w w = [].
Proof. unfold new_events. apply drop_all. Qed.

End NewEvents.

(** C6 — Input gating.  Unless the trigger is pressed with a non-empty
    credential and an uploaded document, [main] leaves the world as it found
    it: no request to the language model or to the speech service is made
    and no file is created. *)
Theorem input_gating (env : Env) (inp : Inputs) (w : World) :
  ~ (process_button inp = true
     /\ api_key_input inp <> ""
     /\ uploaded_file inp <> None) ->
  main env inp w = (inr tt, w)
  /\ llm_calls (new_events w (snd (main env inp w))) = []
  /\ tts_calls (new_events w (snd (main env inp w))) = []
  /\ files_written (new_events w (snd (main env inp w))) = [].
Proof.
  intros Hnot.
  assert (Hgate : gate inp = false).
  { unfold gate. apply not_true_is_false. intros Hg. apply Hnot.
    apply andb_prop in Hg as [[Hb Hk]%andb_prop Hu].
    apply negb_true_iff, bool_decide_eq_false in Hk.
    apply bool_decide_eq_true in Hu. done. }
  unfold main. rewrite Hgate. unfold ret. simpl.
  by rewrite new_events_same.
Qed.

Lemma input_gating_witness :
  main env_ok inputs_no_key world0 = (inr tt, world0).
Proof.
  apply (input_gating env_ok inputs_no_key world0).
  intros (_ & Hkey & _). by apply Hkey.
Defined.

Section ProjectionTactics.

Lemma projections_nil :
  llm_calls [] = [] /\ tts_calls [] = [] /\ files_written [] = []
  /\ files_unlinked [] = [] /\ errors_shown [] = [] /\ displayed [] = [].
Proof. done. Qed.

Lemma display_events_unfold (scripts paths : list string) :
  display_events scripts paths
  = StHeader "📜 Generated Presentation Scripts"
    :: display_rows 1 scripts paths.
Proof. reflexivity. Qed.

End ProjectionTactics.

(** Push the projections of a trace through its concatenations. *)
Ltac project_trace :=
  rewrite ?new_events_after, ?display_events_unfold;
  repeat first
    [ rewrite llm_calls_app | rewrite llm_calls_cons
    | rewrite tts_calls_app | rewrite tts_calls_cons
    | rewrite files_written_app | rewrite files_written_cons
    | rewrite files_unlinked_app | rewrite files_unlinked_cons
    | rewrite errors_shown_app | rewrite errors_shown_cons
    | rewrite displayed_app | rewrite displayed_cons ];
  cbn [option_list option_rect llm_call_of tts_call_of written_of unlinked_of
       error_of is_display];
  rewrite ?(proj1 projections_nil),
    ?(proj1 (proj2 projections_nil)),
    ?(proj1 (proj2 (proj2 projections_nil))),
    ?(proj1 (proj2 (proj2 (proj2 projections_nil)))),
    ?(proj1 (proj2 (proj2 (proj2 (proj2 projections_nil))))),
    ?(proj2 (proj2 (proj2 (proj2 (proj2 projections_nil))))).

Section CleanupFacts.
Context (env : Env).

(** On every path other than a refusal of the speech service, the cleanup
    is total: no file written by the run is left when [main] returns. *)
Lemma cleanup_total_without_tts_failure (inp : Inputs) (w : World) :
  let new := new_events w (snd (main env inp w)) in
  (forall script lang e, (script, lang, inl e) ∉ tts_calls new) ->
  forall path, path ∈ files_written new ->
    fs (snd (main env inp w)) !! path = None.
Proof.
  intros new. unfold new. clear new.
  pose proof (main_run_shape env inp w) as Hshape.
  destruct (main env inp w) as [res w'].
  inversion Hshape; subst; cbn [fst snd]; intros Hnofail path.
  - rewrite new_events_same. by intros ?%elem_of_nil.
  - project_trace. cbn [app]. intros ->%list_elem_of_singleton.
    rewrite fs_after. apply lookup_delete_eq.
  - project_trace.
    rewrite (proj1 (proj2 (scripting_events_other _ _ _ _ _))).
    cbn [app]. intros ->%list_elem_of_singleton.
    rewrite fs_after. apply lookup_delete_eq.
  - exfalso. apply (Hnofail failing voice e).
    project_trace.
    rewrite (proj1 (scripting_events_other _ _ _ _ _)).
    rewrite (proj1 (proj2 (partial_events_projections _ _))). cbn [app].
    apply elem_of_app. right. by left.
  - assert (Hs : length scripts = length (extract_slide_text p)).
    { unfold scripts. rewrite length_zip_with.
      match goal with
      | H : answered _ _ _ _ |- _ => apply Forall2_length in H
      end.
      unfold texts. lia. }
    assert (Hp : length paths = length scripts)
      by (unfold paths; rewrite audio_paths_length; lia).
    project_trace.
    rewrite (proj1 (proj2 (scripting_events_other _ _ _ _ _))).
    rewrite synth_events_written by lia.
    rewrite (proj1 (proj2 (proj2 (proj2 (display_rows_projections _ _ _))))).
    rewrite (proj1 (proj2 (proj2 (proj2 (unlinks_projections _))))).
    rewrite !app_nil_r. cbn [app]. rewrite fs_after.
    intros [->|Hin]%elem_of_cons.
    + apply unlink_all_lookup_absent, lookup_delete_eq.
    + by apply unlink_all_lookup.
Qed.

End CleanupFacts.

(** C1 — Cleanup totality fails after a partial synthesis.  When the speech
    service answers for the first two scripts and refuses the third, the run
    has written the document copy and two audio files, the cleanup unlinks
    the document copy only, and the two audio files are still in the temp
    directory when [main] returns. *)
Theorem cleanup_leaves_audio_after_partial_synthesis :
  let w' := snd (main env_tts_partial inputs_go world0) in
  fst (main env_tts_partial inputs_go world0) = inr tt
  /\ files_written (trace w')
     = ["/tmp/tmpabcd1234.pptx"; "/tmp/slide_1_id7.mp3"; "/tmp/slide_2_id9.mp3"]
  /\ files_unlinked (trace w') = ["/tmp/tmpabcd1234.pptx"]
  /\ fs w' !! "/tmp/slide_1_id7.mp3" = Some "mp3:Welcome."
  /\ fs w' !! "/tmp/slide_2_id9.mp3" = Some "mp3:Welcome.".
Proof. vm_compute. repeat split. Qed.

(** C10 — Fixed request parameters.  Each call of [generate_slide_script]
    on a constructed generator issues exactly one request, with model
    [claude-3-5-sonnet-20240620] and an output cap of 300 tokens, whatever
    the credential and the slide text; and so does every request of every
    run of [main].  The function takes no model argument. *)
Theorem fixed_llm_request_parameters (env : Env) :
  (forall (key slide_text : string) (w : World),
     exists response,
       llm_calls
         (new_events w
            (snd (generate_slide_script env
                    (ClaudePPTScriptGenerator_init key) slide_text w)))
       = [("claude-3-5-sonnet-20240620", 300, prompt slide_text, response)])
  /\ (forall (inp : Inputs) (w : World),
        Forall (fun call => call.1.1.1 = "claude-3-5-sonnet-20240620"
                            /\ call.1.1.2 = 300)
          (llm_calls (new_events w (snd (main env inp w))))).
Proof.
  split.
  - intros key slide_text w. rewrite generate_slide_script_spec. cbv zeta.
    eexists. simpl. rewrite new_events_after. apply script_events_llm.
  - intros inp w.
    assert (Hscr : forall n texts responses,
              Forall (fun call => call.1.1.1 = "claude-3-5-sonnet-20240620"
                                  /\ call.1.1.2 = 300)
                (llm_calls
                   (scripting_events
                      (ClaudePPTScriptGenerator_init (api_key_input inp))
                      n 0 texts responses))).
    { intros n texts responses. rewrite scripting_events_llm.
      apply Forall_forall. intros call Hin.
      apply elem_of_lookup_zip_with in Hin as (i & t & r & -> & _ & _).
      done. }
    pose proof (main_run_shape env inp w) as Hshape.
    destruct (main env inp w) as [res w'].
    inversion Hshape; subst; cbn [snd].
    + rewrite new_events_same. constructor.
    + project_trace. constructor.
    + project_trace. rewrite app_nil_r. apply Hscr.
    + project_trace.
      rewrite (proj1 (synth_events_other _ _ _ _)).
      rewrite (proj1 (partial_events_projections _ _)), !app_nil_r.
      apply Hscr.
    + project_trace.
      rewrite (proj1 (synth_events_other _ _ _ _)).
      rewrite (proj1 (proj2 (display_rows_projections _ _ _))).
      rewrite (proj1 (proj2 (unlinks_projections _))).
      rewrite !app_nil_r. apply Hscr.
Qed.

Section DegradeFacts.
Context (env : Env).

Lemma script_of_failed_response (t : string) (r : exn + list ContentBlock) :
  llm_failed r = true -> script_of_response t r = fallback_script t.
Proof.
  unfold llm_failed, script_of_response.
  by destruct (script_result r).
Qed.

Lemma scripts_all_fallback (gen : ClaudePPTScriptGenerator)
    (texts : list string) (responses : list (exn + list ContentBlock)) :
  (forall h k m n c, llm_failed (messages_create env h k m n c) = true) ->
  answered env gen texts responses ->
  zip_with script_of_response texts responses = map fallback_script texts.
Proof.
  intros Hfail Hans.
  induction Hans as [|t r texts responses [h ->] _ IH]; [done|].
  simpl. by rewrite script_of_failed_response, IH.
Qed.

Lemma synth_requests (voice : string) (scripts audios : list string) :
  length audios = length scripts ->
  map (fun call : string * string * (exn + string) => call.1.1)
    (zip_with (fun s a => (s, voice, inr a)) scripts audios)
  = scripts.
Proof.
  revert audios; induction scripts as [|s scripts IH]; intros [|a audios] Hlen;
    simplify_eq/=; [done|].
  by rewrite IH.
Qed.

End DegradeFacts.

(** C2 — Degrade, not fail.  [generate_slide_script] never raises; when the
    remote call fails (it raises, or its answer carries no leading text) the
    function returns exactly ["Slide content: "] followed by the slide text.
    If the language model fails for every slide while the document parses
    and the speech service answers, the run requests the synthesis of one
    fallback script per slide, in slide order, and displays them all. *)
Theorem degrade_not_fail (env : Env) :
  (forall (gen : ClaudePPTScriptGenerator) (slide_text : string) (w : World),
     exists script w',
       generate_slide_script env gen slide_text w = (inr script, w')
       /\ (llm_failed
             (messages_create env (trace w) (api_key (client gen)) (model gen)
                300 (prompt slide_text)) = true ->
           script = "Slide content: " +:+ slide_text))
  /\ (forall (inp : Inputs) (w : World) (content : string) (p : Presentation),
        gate inp = true ->
        uploaded_file inp = Some content ->
        parse_pptx env content = inr p ->
        is_Some (dict_lookup voice_options (selected_voice inp)) ->
        (forall h k m n c, llm_failed (messages_create env h k m n c) = true) ->
        (forall h s l, exists audio, gTTS env h s l = inr audio) ->
        exists audio_files,
          let scripts :=
            map (fun t => "Slide content: " +:+ t) (extract_slide_text p) in
          let new := new_events w (snd (main env inp w)) in
          length scripts = length (slides p)
          /\ length audio_files = length scripts
          /\ fst (main env inp w) = inr tt
          /\ map (fun call => call.1.1) (tts_calls new) = scripts
          /\ displayed new = display_events scripts audio_files).
Proof.
  split.
  - intros gen slide_text w. rewrite generate_slide_script_spec. cbv zeta.
    eexists _, _. split; [reflexivity|].
    apply script_of_failed_response.
  - intros inp w content p Hgate Hup Hparse [voice Hvoice] Hllm Htts.
    pose proof (main_run_shape env inp w) as Hshape.
    destruct (main env inp w) as [res w'].
    inversion Hshape; subst; cbn [fst snd]; try congruence.
    + (* the speech service cannot have refused *)
      match goal with
      | H : exists h, gTTS env h _ _ = inl _ |- _ => destruct H as [h Hh]
      end.
      destruct (Htts h failing voice0) as [a Ha]. congruence.
    + assert (content0 = content) as -> by congruence.
      assert (p0 = p) as -> by congruence.
      assert (voice0 = voice) as -> by congruence.
      exists paths. cbv zeta.
      change (fun t => "Slide content: " +:+ t) with fallback_script.
      assert (Hs : scripts = map fallback_script (extract_slide_text p))
        by (apply (scripts_all_fallback env gen); done).
      rewrite <- Hs.
      assert (Hlen : length scripts = length (extract_slide_text p))
        by (rewrite Hs; apply length_map).
      split.
      { rewrite Hlen. apply extract_slide_text_length. }
      split; [unfold paths; rewrite audio_paths_length; lia|].
      split; [done|].
      assert (Hp : length paths = length scripts)
        by (unfold paths; rewrite audio_paths_length; lia).
      split.
      * project_trace.
        rewrite (proj1 (scripting_events_other _ _ _ _ _)).
        rewrite synth_events_tts by (done || lia).
        rewrite (proj1 (proj2 (proj2 (display_rows_projections _ _ _)))).
        rewrite (proj1 (proj2 (proj2 (unlinks_projections _)))).
        rewrite !app_nil_r. simpl. apply synth_requests. lia.
      * project_trace.
        rewrite (proj2 (proj2 (scripting_events_other _ _ _ _ _))).
        rewrite (proj1 (proj2 (synth_events_other _ _ _ _))).
        rewrite (proj1 (display_rows_projections _ _ _)).
        rewrite (proj1 (unlinks_projections _)).
        by rewrite !app_nil_r.
Qed.

Lemma degrade_not_fail_witness :
  exists audio_files,
    displayed (new_events world0 (snd (main env_llm_down inputs_go world0)))
    = display_events
        ["Slide content: Intro "; "Slide content: "; "Slide content: Conclusion"]
        audio_files.
Proof.
  destruct (proj2 (degrade_not_fail env_llm_down) inputs_go world0 "PK" deck3)
    as (audio_files & _ & _ & _ & _ & Hshown).
  - reflexivity.
  - reflexivity.
  - reflexivity.
  - by eexists.
  - reflexivity.
  - intros h s l. by eexists.
  - exists audio_files. exact Hshown.
Defined.

(** C7 — Empty presentation.  A document without slides is not an error:
    the pipeline yields an empty script sequence and an empty audio
    sequence, the run displays the (empty) result and cleans up, no request
    is sent to the language model or to the speech service, and no error is
    shown. *)
Theorem empty_presentation_completes (env : Env) (inp : Inputs) (w : World)
    (content : string) (p : Presentation) :
  gate inp = true ->
  uploaded_file inp = Some content ->
  parse_pptx env content = inr p ->
  slides p = [] ->
  is_Some (dict_lookup voice_options (selected_voice inp)) ->
  let tmp := tmp_pptx_path env w in
  let w1 := after w (<[tmp := content]> (fs w)) [FileWrite tmp content] in
  let new := new_events w (snd (main env inp w)) in
  main_pipeline env (ClaudePPTScriptGenerator_init (api_key_input inp)) tmp
    (selected_voice inp) w1
  = (inr ([], []), w1)
  /\ main env inp w
     = (inr tt,
        after w (delete tmp (<[tmp := content]> (fs w)))
          [FileWrite tmp content;
           StHeader "📜 Generated Presentation Scripts";
           FileUnlink tmp])
  /\ llm_calls new = [] /\ tts_calls new = [] /\ errors_shown new = [].
Proof.
  intros Hgate Hup Hparse Hslides [voice Hvoice] tmp w1 new.
  assert (Hfile : fs w1 !! tmp = Some content)
    by (unfold w1; rewrite fs_after; apply lookup_insert_eq).
  assert (Hpipe :
    main_pipeline env (ClaudePPTScriptGenerator_init (api_key_input inp)) tmp
      (selected_voice inp) w1 = (inr ([], []), w1)).
  { rewrite (main_pipeline_load env _ tmp _ content w1 Hfile), Hparse.
    unfold extract_slide_text. rewrite Hslides.
    change (fold_left collect_slide [] []) with (@nil string).
    change (scripting_loop env _ [] w1) with (@inr exn _ (@nil string), w1).
    by rewrite Hvoice. }
  assert (Hmain :
    main env inp w
    = (inr tt,
       after w (delete tmp (<[tmp := content]> (fs w)))
         [FileWrite tmp content;
          StHeader "📜 Generated Presentation Scripts";
          FileUnlink tmp])).
  { rewrite (main_gate_open env inp content w Hgate Hup). cbv zeta.
    fold tmp. fold w1. rewrite Hpipe.
    unfold bind at 1, try_except.
    rewrite main_display_run by done.
    rewrite main_finally_bound.
    - unfold w1. by rewrite !after_after, !fs_after.
    - rewrite fs_after, Hfile. by eexists.
    - constructor.
    - apply not_elem_of_nil.
    - intros q Hq. by apply elem_of_nil in Hq. }
  split; [done|]. split; [done|].
  unfold new. rewrite Hmain. cbn [snd]. rewrite new_events_after. done.
Qed.

Lemma empty_presentation_completes_witness :
  main env_empty_deck inputs_go world0
  = (inr tt,
     after world0
       (delete "/tmp/tmpabcd1234.pptx" (<["/tmp/tmpabcd1234.pptx" := "PK"]> ∅))
       [FileWrite "/tmp/tmpabcd1234.pptx" "PK";
        StHeader "📜 Generated Presentation Scripts";
        FileUnlink "/tmp/tmpabcd1234.pptx"]).
Proof.
  apply (proj1 (proj2 (empty_presentation_completes env_empty_deck inputs_go
                         world0 "PK" {| slides := [] |}
                         eq_refl eq_refl eq_refl eq_refl
                         (ex_intro _ "fr" eq_refl)))).
Defined.

Section SynthesisReturns.
Context (env : Env).

(** [generate_audio] returns as soon as the speech service answers each of
    the scripts it is given. *)
Lemma generate_audio_returns (scripts : list string) (voice : string)
    (w : World) :
  (forall h script,
     script ∈ scripts -> exists audio, gTTS env h script voice = inr audio) ->
  exists audio_files,
    fst (generate_audio env scripts voice w) = inr audio_files.
Proof.
  intros Hanswers.
  destruct (generate_audio_cases env voice scripts w)
    as [(uuids & audios & _ & _ & _ & Heq)
       |(ready & failing & rest & e & uuids & audios & fpath & partial
         & Hsplit & _ & _ & [h Hfail] & _)].
  - rewrite Heq. by eexists.
  - destruct (Hanswers h failing) as [audio Haudio].
    + rewrite Hsplit. apply elem_of_app. right. by left.
    + congruence.
Qed.

End SynthesisReturns.

(** C8 — Audio artifact naming.  Given scripts that the speech service
    answers, [generate_audio] returns a list of paths.  Whenever it
    returns, the list has one path per script, in order: the path at
    position [i] lies in the system temp directory, its file name is
    [slide_], the number [i+1], [_], an identifier drawn from [uuid4], and
    [.mp3], and the file there holds the audio the service returned for
    script [i], the [i]-th request of the call; the paths of one call are
    pairwise distinct.  Two names agree only if both their index and their
    identifier agree, so that artifacts with distinct identifiers never
    share a name. *)
Theorem audio_artifact_naming (env : Env) (scripts : list string)
    (voice : string) (w : World) :
  ((forall h script,
      script ∈ scripts -> exists audio, gTTS env h script voice = inr audio) ->
   exists audio_files,
     fst (generate_audio env scripts voice w) = inr audio_files)
  /\ (forall audio_files : list string,
        fst (generate_audio env scripts voice w) = inr audio_files ->
        let w' := snd (generate_audio env scripts voice w) in
        length audio_files = length scripts
        /\ NoDup audio_files
        /\ (forall (i : nat) (path : string),
              audio_files !! i = Some path ->
              exists uuid sep,
                (exists h, uuid = uuid4 env h)
                /\ (sep = "" \/ sep = "/")
                /\ path = gettempdir env +:+ sep +:+
                          "slide_" +:+ str_int (i + 1) +:+ "_" +:+ uuid
                          +:+ ".mp3")
        /\ (forall (i : nat) (script path : string),
              scripts !! i = Some script ->
              audio_files !! i = Some path ->
              exists audio,
                tts_calls (new_events w w') !! i
                = Some (script, voice, inr audio)
                /\ fs w' !! path = Some audio))
  /\ (forall (d : string) (i j : nat) (u v : string),
        os_path_join d ("slide_" +:+ str_int i +:+ "_" +:+ u +:+ ".mp3")
        = os_path_join d ("slide_" +:+ str_int j +:+ "_" +:+ v +:+ ".mp3") ->
        i = j /\ u = v).
Proof.
  split; [apply generate_audio_returns|].
  split; [|intros d i j u v; apply audio_path_inj].
  intros audio_files Hrun w'. unfold w'. clear w'.
  destruct (generate_audio_cases env voice scripts w)
    as [(uuids & audios & Hu & Ha & Hids & Heq)
       |(ready & failing & rest & e & uuids & audios & fpath & partial
         & _ & _ & _ & _ & Heq)];
    rewrite Heq in Hrun |- *; simpl in Hrun; [|done].
  injection Hrun as <-.
  assert (Hp : length (audio_paths (gettempdir env) 1 uuids) = length scripts)
    by (rewrite audio_paths_length; lia).
  split; [done|].
  split; [apply audio_paths_NoDup|].
  split.
  - intros i path Hi.
    assert (Hlt : i < length uuids).
    { rewrite <- (audio_paths_length (gettempdir env) 1).
      by apply lookup_lt_is_Some; eexists. }
    destruct (lookup_lt_is_Some_2 uuids i Hlt) as [u Hui].
    rewrite (audio_paths_lookup _ _ _ _ _ Hui) in Hi.
    destruct (os_path_join_relative (gettempdir env) (audio_filename (1 + i) u)
                (audio_filename_relative _ _)) as (sep & Hsep & Hjoin).
    rewrite Hjoin in Hi. injection Hi as <-.
    exists u, sep. split.
    + by apply (Forall_lookup_1 _ _ _ _ Hids Hui).
    + split; [done|]. by rewrite (Nat.add_comm i 1).
  - intros i script path Hscript Hpath. cbn [snd].
    assert (Hlt : i < length audios).
    { rewrite Ha. apply lookup_lt_is_Some. by eexists. }
    destruct (lookup_lt_is_Some_2 audios i Hlt) as [audio Haudio].
    exists audio. rewrite new_events_after, fs_after. split.
    + rewrite synth_events_tts by done.
      rewrite lookup_zip_with, Hscript. simpl. by rewrite Haudio.
    + apply (write_all_lookup _ audios _ i); [apply audio_paths_NoDup|done..].
Qed.

Lemma audio_artifact_naming_witness :
  exists audio_files,
    fst (generate_audio env_picky_tts ["a"; "b"] "en" world0) = inr audio_files
    /\ length audio_files = 2
    /\ NoDup audio_files.
Proof.
  destruct (proj1 (audio_artifact_naming env_picky_tts ["a"; "b"] "en" world0))
    as [audio_files Hrun].
  - intros h script Hin. apply list_elem_of_In in Hin.
    destruct Hin as [<-|[<-|[]]]; by eexists.
  - exists audio_files. split; [exact Hrun|].
    destruct (proj1 (proj2 (audio_artifact_naming env_picky_tts ["a"; "b"]
                              "en" world0)) audio_files Hrun)
      as (Hlen & Hnd & _).
    split; [exact Hlen|exact Hnd].
Defined.

(** C5 — Alignment invariant.  Whenever the pipeline completes synthesis,
    the slide texts, the scripts and the audio paths have the same length
    (the number of slides) and are aligned: for every position [i], the
    [i]-th request to the language model carries the prompt built from
    slide text [i] and script [i] is what its answer yields; the [i]-th
    request to the speech service carries script [i], and the audio it
    returned is the content of the file at audio path [i]. *)
Theorem alignment_invariant (env : Env) (gen : ClaudePPTScriptGenerator)
    (tmp voice_key : string) (w : World) (scripts audio_files : list string) :
  fst (main_pipeline env gen tmp voice_key w) = inr (scripts, audio_files) ->
  let w' := snd (main_pipeline env gen tmp voice_key w) in
  let new := new_events w w' in
  exists (content : string) (p : Presentation) (voice : string),
    let slide_texts := extract_slide_text p in
    fs w !! tmp = Some content
    /\ parse_pptx env content = inr p
    /\ dict_lookup voice_options voice_key = Some voice
    /\ length slide_texts = length (slides p)
    /\ length scripts = length slide_texts
    /\ length audio_files = length slide_texts
    /\ (forall (i : nat) (slide_text : string),
          slide_texts !! i = Some slide_text ->
          exists response script audio path,
            llm_calls new !! i
            = Some (model gen, 300, prompt slide_text, response)
            /\ script = script_of_response slide_text response
            /\ scripts !! i = Some script
            /\ tts_calls new !! i = Some (script, voice, inr audio)
            /\ audio_files !! i = Some path
            /\ fs w' !! path = Some audio).
Proof.
  intros Hrun w' new. unfold new, w'. clear new w'.
  destruct (fs w !! tmp) as [content|] eqn:Hfile.
  2:{ unfold main_pipeline, bind at 1, load_presentation in Hrun.
      by rewrite Hfile in Hrun. }
  rewrite (main_pipeline_load env gen tmp voice_key content w Hfile) in Hrun |- *.
  destruct (parse_pptx env content) as [e|p] eqn:Hparse; [done|].
  destruct (scripting_loop_spec env gen (extract_slide_text p) w)
    as (responses & Hans & Hloop).
  rewrite Hloop in Hrun |- *.
  destruct (dict_lookup voice_options voice_key) as [voice|] eqn:Hvoice;
    [|done].
  set (texts := extract_slide_text p) in *.
  set (scr := zip_with script_of_response texts responses) in *.
  destruct (generate_audio_cases env voice scr
              (after w (fs w) (scripting_events gen (length texts) 0 texts responses)))
    as [(uuids & audios & Hu & Ha & _ & Heq)
       |(ready & failing & rest & e & uuids & audios & fpath & partial
         & _ & _ & _ & _ & Heq)];
    rewrite Heq in Hrun |- *; simpl in Hrun; [|done].
  injection Hrun as <- <-.
  assert (Hresp : length responses = length texts)
    by (symmetry; apply (Forall2_length _ _ _ Hans)).
  assert (Hscr : length scr = length texts)
    by (unfold scr; rewrite length_zip_with; lia).
  set (paths := audio_paths (gettempdir env) 1 uuids).
  assert (Hpaths : length paths = length texts)
    by (unfold paths; rewrite audio_paths_length; lia).
  exists content, p, voice. cbv zeta. fold texts.
  split; [done|]. split; [done|]. split; [done|].
  split; [apply extract_slide_text_length|].
  split; [done|]. split; [done|].
  intros i t Hi.
  assert (Hlt : i < length texts) by (apply lookup_lt_is_Some; by eexists).
  destruct (lookup_lt_is_Some_2 responses i) as [r Hr]; [lia|].
  destruct (lookup_lt_is_Some_2 audios i) as [a Hai]; [lia|].
  destruct (lookup_lt_is_Some_2 paths i) as [path Hpi]; [lia|].
  assert (Hsi : scr !! i = Some (script_of_response t r)).
  { unfold scr. rewrite lookup_zip_with, Hi. simpl. by rewrite Hr. }
  exists r, (script_of_response t r), a, path.
  cbn [snd]. rewrite after_after, new_events_after, fs_after.
  split.
  { rewrite llm_calls_app, scripting_events_llm.
    rewrite (proj1 (synth_events_other _ _ _ _)), app_nil_r.
    rewrite lookup_zip_with, Hi. simpl. by rewrite Hr. }
  split; [done|]. split; [done|].
  split.
  { rewrite tts_calls_app, (proj1 (scripting_events_other _ _ _ _ _)).
    rewrite synth_events_tts by lia. simpl.
    rewrite lookup_zip_with, Hsi. simpl. by rewrite Hai. }
  split; [done|].
  apply (write_all_lookup paths audios _ i); [apply audio_paths_NoDup|done..].
Qed.

Lemma alignment_invariant_witness :
  exists (content : string) (p : Presentation) (voice : string),
    fs world_uploaded !! "/tmp/tmpabcd1234.pptx" = Some content
    /\ parse_pptx env_ok content = inr p
    /\ dict_lookup voice_options "French" = Some voice
    /\ length (extract_slide_text p) = length (slides p).
Proof.
  destruct (alignment_invariant env_ok (ClaudePPTScriptGenerator_init "sk-test")
              "/tmp/tmpabcd1234.pptx" "French" world_uploaded
              ["Welcome."; "Welcome."; "Welcome."]
              ["/tmp/slide_1_id7.mp3"; "/tmp/slide_2_id9.mp3";
               "/tmp/slide_3_id11.mp3"])
    as (content & p & voice & Hfile & Hparse & Hvoice & Hlen & _).
  - vm_compute. reflexivity.
  - by exists content, p, voice.
Defined.

Section FatalFacts.

Lemma synth_events_tts_answers (voice : string)
    (scripts paths audios : list string) (script lang : string) (e : exn) :
  (script, lang, inl e) ∉ tts_calls (synth_events voice scripts paths audios).
Proof.
  revert paths audios; induction scripts as [|s scripts IH];
    intros [|p paths] [|a audios]; try apply not_elem_of_nil.
  change (synth_events voice (s :: scripts) (p :: paths) (a :: audios))
    with (TtsCall s voice (inr a) :: FileWrite p a
            :: synth_events voice scripts paths audios).
  rewrite !tts_calls_cons. cbn [option_list tts_call_of app].
  intros [Heq|Hin]%elem_of_cons; [discriminate|]. by apply IH in Hin.
Qed.

End FatalFacts.

(** C3 — A failure of the speech service is fatal and propagates.  If the
    service refuses a script, [generate_audio] raises that very error to
    its caller instead of degrading.  In [main] the [try] block then ends
    with this error before [audio_files] is bound, so that no audio path
    reaches the orchestrator; nothing is displayed, neither script nor
    audio; the refusal is immediately followed by the notice
    [An error occurred: <message>] and by the cleanup, which removes the
    document copy; and no further script is sent to the service after the
    refused one. *)
Theorem tts_failure_is_fatal (env : Env) :
  (forall (scripts : list string) (voice : string) (w : World)
          (script lang : string) (e : exn),
     (script, lang, inl e)
     ∈ tts_calls (new_events w (snd (generate_audio env scripts voice w))) ->
     fst (generate_audio env scripts voice w) = inl e)
  /\ (forall (inp : Inputs) (w : World) (script lang : string) (e : exn),
        let new := new_events w (snd (main env inp w)) in
        let tmp := tmp_pptx_path env w in
        (script, lang, inl e) ∈ tts_calls new ->
        (exists content,
           uploaded_file inp = Some content
           /\ fst (main_pipeline env
                     (ClaudePPTScriptGenerator_init (api_key_input inp)) tmp
                     (selected_voice inp)
                     (after w (<[tmp := content]> (fs w))
                        [FileWrite tmp content]))
              = inl e)
        /\ displayed new = []
        /\ (exists before rest,
              new = before ++ TtsCall script lang (inl e)
                    :: StError ("An error occurred: " +:+ str_exn e)
                    :: FileUnlink tmp :: rest)
        /\ fs (snd (main env inp w)) !! tmp = None
        /\ fst (main env inp w) = inr tt
        /\ (exists ready audios,
              length audios = length ready
              /\ tts_calls new
                 = zip_with (fun s a => (s, lang, inr a)) ready audios
                   ++ [(script, lang, inl e)])).
Proof.
  split.
  - intros scripts voice w script lang e.
    destruct (generate_audio_cases env voice scripts w)
      as [(uuids & audios & Hu & Ha & _ & Heq)
         |(ready & failing & rest & e' & uuids & audios & fpath & partial
           & _ & Hu & Ha & _ & Heq)];
      rewrite Heq; cbn [fst snd]; rewrite new_events_after.
    + intros Hin. by apply synth_events_tts_answers in Hin.
    + rewrite !tts_calls_app.
      rewrite (proj1 (proj2 (partial_events_projections _ _))). cbn [app].
      intros [Hin|Hin]%elem_of_app.
      * by apply synth_events_tts_answers in Hin.
      * apply list_elem_of_singleton in Hin. by injection Hin as _ _ ->.
  - intros inp w script lang e new tmp. unfold new. clear new.
    pose proof (main_run_shape env inp w) as Hshape.
    destruct (main env inp w) as [res w'].
    inversion Hshape; subst; cbn [fst snd].
    + rewrite new_events_same. by intros ?%elem_of_nil.
    + project_trace. by intros ?%elem_of_nil.
    + project_trace.
      rewrite (proj1 (scripting_events_other _ _ _ _ _)).
      by intros ?%elem_of_nil.
    + (* the speech service refused [failing] *)
      assert (Hp : length paths = length ready)
        by (unfold paths; rewrite audio_paths_length; lia).
      rewrite new_events_after.
      assert (Hcalls :
        tts_calls
          (FileWrite tmp0 content
           :: scripting_events gen (length texts) 0 texts responses
           ++ synth_events voice ready paths audios
           ++ partial_events fpath partial
           ++ [TtsCall failing voice (inl e0);
               StError ("An error occurred: " +:+ str_exn e0);
               FileUnlink tmp0])
        = zip_with (fun s a => (s, voice, inr a)) ready audios
          ++ [(failing, voice, inl e0)]).
      { project_trace.
        rewrite (proj1 (scripting_events_other _ _ _ _ _)).
        rewrite (proj1 (proj2 (partial_events_projections _ _))).
        by rewrite synth_events_tts by (done || lia). }
      rewrite Hcalls. intros Hin.
      assert (Hlast : (script, lang, @inl exn string e)
                      = (failing, voice, @inl exn string e0)).
      { apply elem_of_app in Hin as [Hin|Hin].
        - apply elem_of_lookup_zip_with in Hin as (i & s & a & Heq & _).
          discriminate.
        - by apply list_elem_of_singleton in Hin. }
      injection Hlast as -> -> ->.
      split; [by exists content|].
      split.
      { project_trace.
        rewrite (proj2 (proj2 (scripting_events_other _ _ _ _ _))).
        rewrite (proj1 (proj2 (synth_events_other _ _ _ _))).
        by rewrite (proj1 (proj2 (proj2 (partial_events_projections _ _)))). }
      split.
      { exists (FileWrite tmp0 content
                :: scripting_events gen (length texts) 0 texts responses
                ++ synth_events voice ready paths audios
                ++ partial_events fpath partial), [].
        by rewrite <- app_comm_cons, <- !app_assoc. }
      split; [rewrite fs_after; apply lookup_delete_eq|].
      split; [done|].
      by exists ready, audios.
    + project_trace.
      rewrite (proj1 (scripting_events_other _ _ _ _ _)).
      rewrite (proj1 (proj2 (proj2 (display_rows_projections _ _ _)))).
      rewrite (proj1 (proj2 (proj2 (unlinks_projections _)))).
      rewrite !app_nil_r. cbn [app].
      intros Hin. by apply synth_events_tts_answers in Hin.
Qed.

Lemma tts_failure_is_fatal_witness :
  displayed (new_events world0 (snd (main env_tts_partial inputs_go world0)))
  = []
  /\ fst (main env_tts_partial inputs_go world0) = inr tt.
Proof.
  destruct (proj2 (tts_failure_is_fatal env_tts_partial) inputs_go world0
              "Welcome." "fr" (Exception "429 too many requests"))
    as (_ & Hshown & _ & _ & Hret & _).
  - vm_compute. apply list_elem_of_In. right. right. left. reflexivity.
  - split; [exact Hshown|exact Hret].
Defined.

(** * Further properties of the program *)

Section FrameFacts.
Context (env : Env).

Lemma unlink_all_lookup_other (paths : list string)
    (files : gmap string string) (q : string) :
  q ∉ paths -> unlink_all paths files !! q = files !! q.
Proof.
  revert files; induction paths as [|p paths IH]; intros files Hq; simpl;
    [done|].
  apply not_elem_of_cons in Hq as [Hne Hq].
  rewrite IH by done. by rewrite lookup_delete_ne.
Qed.

Lemma leave_partial_lookup_other (path : string) (partial : option string)
    (files : gmap string string) (q : string) :
  q ∉ files_written (partial_events path partial) ->
  leave_partial path partial files !! q = files !! q.
Proof.
  destruct partial as [bytes|]; [|done]. simpl.
  intros Hq. apply lookup_insert_ne. intros ->. apply Hq. by left.
Qed.

Lemma answered_length (gen : ClaudePPTScriptGenerator) (texts : list string)
    (responses : list (exn + list ContentBlock)) :
  answered env gen texts responses -> length responses = length texts.
Proof. intros Hans. symmetry. apply (Forall2_length _ _ _ Hans). Qed.

(** The paths written by a run, shape by shape. *)
Lemma written_parse_error (tmp content msg : string) :
  files_written [FileWrite tmp content; StError msg; FileUnlink tmp] = [tmp].
Proof. done. Qed.

Lemma written_voice_error (gen : ClaudePPTScriptGenerator) (n : nat)
    (texts : list string) (responses : list (exn + list ContentBlock))
    (tmp content msg : string) :
  files_written
    (FileWrite tmp content
     :: scripting_events gen n 0 texts responses
     ++ [StError msg; FileUnlink tmp])
  = [tmp].
Proof.
  project_trace.
  by rewrite (proj1 (proj2 (scripting_events_other _ _ _ _ _))).
Qed.

Lemma written_tts_error (gen : ClaudePPTScriptGenerator) (n : nat)
    (texts : list string) (responses : list (exn + list ContentBlock))
    (voice : string) (ready paths audios : list string)
    (fpath : string) (partial : option string) (failing : string) (e : exn)
    (tmp content msg : string) :
  length paths = length ready -> length audios = length ready ->
  files_written
    (FileWrite tmp content
     :: scripting_events gen n 0 texts responses
     ++ synth_events voice ready paths audios
     ++ partial_events fpath partial
     ++ [TtsCall failing voice (inl e); StError msg; FileUnlink tmp])
  = tmp :: paths ++ files_written (partial_events fpath partial).
Proof.
  intros Hp Ha. project_trace.
  rewrite (proj1 (proj2 (scripting_events_other _ _ _ _ _))).
  rewrite synth_events_written by done.
  by rewrite !app_nil_r.
Qed.

Lemma written_rendered (gen : ClaudePPTScriptGenerator) (n : nat)
    (texts : list string) (responses : list (exn + list ContentBlock))
    (voice : string) (scripts paths audios : list string)
    (tmp content : string) :
  length paths = length scripts -> length audios = length scripts ->
  files_written
    (FileWrite tmp content
     :: scripting_events gen n 0 texts responses
     ++ synth_events voice scripts paths audios
     ++ display_events scripts paths
     ++ FileUnlink tmp :: map FileUnlink paths)
  = tmp :: paths.
Proof.
  intros Hp Ha. project_trace.
  rewrite (proj1 (proj2 (scripting_events_other _ _ _ _ _))).
  rewrite synth_events_written by done.
  rewrite (proj1 (proj2 (proj2 (proj2 (display_rows_projections _ _ _))))).
  rewrite (proj1 (proj2 (proj2 (proj2 (unlinks_projections _))))).
  by rewrite !app_nil_r.
Qed.

(** A run leaves alone every path it has not written. *)
Lemma main_fs_frame (inp : Inputs) (w : World) (q : string) :
  q ∉ files_written (new_events w (snd (main env inp w))) ->
  fs (snd (main env inp w)) !! q = fs w !! q.
Proof.
  pose proof (main_run_shape env inp w) as Hshape.
  destruct (main env inp w) as [res w'].
  inversion Hshape; subst; cbn [fst snd]; rewrite ?new_events_after.
  - done.
  - rewrite written_parse_error, fs_after.
    intros [Hne _]%not_elem_of_cons.
    rewrite lookup_delete_ne by congruence.
    apply lookup_insert_ne. congruence.
  - rewrite written_voice_error, fs_after.
    intros [Hne _]%not_elem_of_cons.
    rewrite lookup_delete_ne by congruence.
    apply lookup_insert_ne. congruence.
  - assert (Hp : length paths = length ready)
      by (unfold paths; rewrite audio_paths_length; lia).
    rewrite written_tts_error, fs_after by done.
    intros [Hne [Hq Hpart]%not_elem_of_app]%not_elem_of_cons.
    rewrite lookup_delete_ne by congruence.
    rewrite leave_partial_lookup_other by done.
    rewrite write_all_lookup_other by done.
    apply lookup_insert_ne. congruence.
  - assert (Hs : length scripts = length (extract_slide_text p)).
    { unfold scripts. rewrite length_zip_with.
      match goal with
      | H : answered _ _ _ _ |- _ => apply answered_length in H
      end.
      unfold texts. lia. }
    assert (Hp : length paths = length scripts)
      by (unfold paths; rewrite audio_paths_length; lia).
    rewrite written_rendered, fs_after by lia.
    intros [Hne Hq]%not_elem_of_cons.
    rewrite unlink_all_lookup_other by done.
    rewrite lookup_delete_ne by congruence.
    rewrite write_all_lookup_other by done.
    apply lookup_insert_ne. congruence.
Qed.

End FrameFacts.

Section UnlinkFacts.

Lemma unlinked_parse_error (tmp content msg : string) :
  files_unlinked [FileWrite tmp content; StError msg; FileUnlink tmp] = [tmp].
Proof. done. Qed.

Lemma scripting_events_unlinked (gen : ClaudePPTScriptGenerator) (n k : nat)
    (texts : list string) (responses : list (exn + list ContentBlock)) :
  files_unlinked (scripting_events gen n k texts responses) = [].
Proof.
  revert k responses; induction texts as [|t texts IH];
    intros k [|r responses]; try done.
  rewrite scripting_events_cons, !files_unlinked_app, IH.
  unfold script_events. by destruct (script_result r).
Qed.

Lemma synth_events_unlinked (voice : string)
    (scripts paths audios : list string) :
  files_unlinked (synth_events voice scripts paths audios) = [].
Proof.
  revert paths audios; induction scripts as [|s scripts IH];
    intros [|p paths] [|a audios]; try done.
  apply IH.
Qed.

Lemma display_rows_unlinked (k : nat) (scripts paths : list string) :
  files_unlinked (display_rows k scripts paths) = [].
Proof.
  revert k paths; induction scripts as [|s scripts IH];
    intros k [|p paths]; try done.
  apply IH.
Qed.

Lemma partial_events_unlinked (path : string) (partial : option string) :
  files_unlinked (partial_events path partial) = [].
Proof. by destruct partial. Qed.

End UnlinkFacts.

(** X2 — A run touches only its own files.  A path the run has not written
    holds after the run what it held before, and every file the run unlinks
    is one it has written itself. *)
Theorem main_touches_only_its_files (env : Env) (inp : Inputs) (w : World) :
  let new := new_events w (snd (main env inp w)) in
  (forall q : string,
     q ∉ files_written new -> fs (snd (main env inp w)) !! q = fs w !! q)
  /\ (forall q : string, q ∈ files_unlinked new -> q ∈ files_written new).
Proof.
  intros new. split; [intros q; apply main_fs_frame|].
  unfold new. clear new.
  pose proof (main_run_shape env inp w) as Hshape.
  destruct (main env inp w) as [res w'].
  inversion Hshape; subst; cbn [fst snd]; rewrite ?new_events_after; intros q.
  - rewrite new_events_same. by intros ?%elem_of_nil.
  - by rewrite written_parse_error, unlinked_parse_error.
  - rewrite written_voice_error. project_trace.
    rewrite scripting_events_unlinked. by cbn [app].
  - assert (Hp : length paths = length ready)
      by (unfold paths; rewrite audio_paths_length; lia).
    rewrite written_tts_error by done. project_trace.
    rewrite scripting_events_unlinked, synth_events_unlinked,
      partial_events_unlinked.
    cbn [app]. intros ->%list_elem_of_singleton. by left.
  - assert (Hs : length scripts = length (extract_slide_text p)).
    { unfold scripts. rewrite length_zip_with.
      match goal with
      | H : answered _ _ _ _ |- _ => apply (answered_length env) in H
      end.
      unfold texts. lia. }
    assert (Hp : length paths = length scripts)
      by (unfold paths; rewrite audio_paths_length; lia).
    rewrite written_rendered by lia. project_trace.
    rewrite scripting_events_unlinked, synth_events_unlinked,
      display_rows_unlinked.
    rewrite (proj2 (proj2 (proj2 (proj2 (proj2 (unlinks_projections _)))))).
    by cbn [app].
Qed.

Lemma main_touches_only_its_files_witness :
  fs (snd (main env_tts_partial inputs_go world_busy)) !! "/tmp/notes.txt"
  = Some "keep".
Proof.
  rewrite (proj1 (main_touches_only_its_files env_tts_partial inputs_go
                    world_busy) "/tmp/notes.txt").
  - reflexivity.
  - vm_compute. intros Hin. apply list_elem_of_In in Hin.
    simpl in Hin. intuition discriminate.
Defined.

(** X3 — Without a refusal of the speech service the temp directory is
    restored.  If no request to the speech service fails during a run, then
    after the run every path the run has written is absent and every other
    path holds what it held before. *)
Theorem temp_directory_restored (env : Env) (inp : Inputs) (w : World) :
  let new := new_events w (snd (main env inp w)) in
  (forall script lang e, (script, lang, inl e) ∉ tts_calls new) ->
  forall q : string,
    fs (snd (main env inp w)) !! q
    = if bool_decide (q ∈ files_written new) then None else fs w !! q.
Proof.
  intros new Hnofail q. destruct (bool_decide_reflect (q ∈ files_written new))
    as [Hin|Hnotin].
  - by apply cleanup_total_without_tts_failure.
  - by apply main_fs_frame.
Qed.

Lemma temp_directory_restored_witness :
  fs (snd (main env_ok inputs_go world_busy)) !! "/tmp/slide_2_id9.mp3" = None
  /\ fs (snd (main env_ok inputs_go world_busy)) !! "/tmp/notes.txt"
     = Some "keep".
Proof.
  assert (Hok : forall script lang e,
            (script, lang, @inl (exn) string e)
            ∉ tts_calls
                (new_events world_busy (snd (main env_ok inputs_go world_busy)))).
  { intros script lang e. vm_compute. intros Hin.
    apply list_elem_of_In in Hin. simpl in Hin. intuition discriminate. }
  split.
  - rewrite (temp_directory_restored env_ok inputs_go world_busy Hok).
    reflexivity.
  - rewrite (temp_directory_restored env_ok inputs_go world_busy Hok).
    reflexivity.
Defined.

Section ProgressFacts.

Lemma progress_reports_app (a b : list Event) :
  progress_reports (a ++ b) = progress_reports a ++ progress_reports b.
Proof. apply omap_app. Qed.

Lemma progress_reports_cons (ev : Event) (l : list Event) :
  progress_reports (ev :: l)
  = option_list (progress_of ev) ++ progress_reports l.
Proof. unfold progress_reports. simpl. by destruct (progress_of ev). Qed.

Lemma script_events_progress (gen : ClaudePPTScriptGenerator) (t : string)
    (r : exn + list ContentBlock) :
  progress_reports (script_events gen t r) = [].
Proof. unfold script_events. by destruct (script_result r). Qed.

Lemma scripting_events_progress (gen : ClaudePPTScriptGenerator) (n k : nat)
    (texts : list string) (responses : list (exn + list ContentBlock)) :
  length responses = length texts ->
  progress_reports (scripting_events gen n k texts responses)
  = map (fun i => (i, n)) (seq (k + 1) (length texts)).
Proof.
  revert k responses; induction texts as [|t texts IH];
    intros k [|r responses] Hlen; try done.
  injection Hlen as Hlen.
  rewrite scripting_events_cons, !progress_reports_app,
    script_events_progress, IH by done.
  simpl. repeat f_equal; lia.
Qed.

Lemma synth_events_progress (voice : string)
    (scripts paths audios : list string) :
  progress_reports (synth_events voice scripts paths audios) = [].
Proof.
  revert paths audios; induction scripts as [|s scripts IH];
    intros [|p paths] [|a audios]; try done.
  apply IH.
Qed.

Lemma display_rows_progress (k : nat) (scripts paths : list string) :
  progress_reports (display_rows k scripts paths) = [].
Proof.
  revert k paths; induction scripts as [|s scripts IH];
    intros k [|p paths]; try done.
  apply IH.
Qed.

Lemma unlinks_progress (paths : list string) :
  progress_reports (map FileUnlink paths) = [].
Proof. by induction paths. Qed.

Lemma partial_events_progress (path : string) (partial : option string) :
  progress_reports (partial_events path partial) = [].
Proof. by destruct partial. Qed.

End ProgressFacts.

(** Push [progress_reports] through the concatenations of a trace. *)
Ltac project_progress :=
  rewrite ?new_events_after, ?display_events_unfold;
  repeat first [ rewrite progress_reports_app | rewrite progress_reports_cons ];
  cbn [option_list option_rect progress_of];
  rewrite ?script_events_progress, ?synth_events_progress,
    ?display_rows_progress, ?unlinks_progress, ?partial_events_progress;
  change (progress_reports []) with (@nil (nat * nat));
  rewrite ?app_nil_r; cbn [app].

(** X4 — Updates of the progress bar.  In every run the values passed to
    [progress_bar.progress] on line 147 are exactly the fractions
    [1/n, 2/n, ..., n/n] in this order, where [n] is the number of updates;
    every update is therefore positive and at most one, and the division
    [(i + 1) / len(slide_texts)] never has a zero denominator.  When the
    uploaded document parses, [n] is its number of slides, so the bar,
    created empty on line 143, is never updated for a document without
    slides. *)
Theorem progress_fractions (env : Env) (inp : Inputs) (w : World) :
  let reports := progress_reports (new_events w (snd (main env inp w))) in
  reports = map (fun i => (i, length reports)) (seq 1 (length reports))
  /\ Forall (fun report => 0 < report.1 <= report.2) reports
  /\ (forall (content : string) (p : Presentation),
        gate inp = true ->
        uploaded_file inp = Some content ->
        parse_pptx env content = inr p ->
        length reports = length (slides p)).
Proof.
  intros reports.
  assert (Hshape :
    exists n,
      reports = map (fun i => (i, n)) (seq 1 n)
      /\ (forall content p,
            gate inp = true -> uploaded_file inp = Some content ->
            parse_pptx env content = inr p -> n = length (slides p))).
  { unfold reports. clear reports.
    pose proof (main_run_shape env inp w) as Hshape.
    destruct (main env inp w) as [res w'].
    inversion Hshape; subst; cbn [fst snd].
    - exists 0. rewrite new_events_same. split; [done|]. congruence.
    - exists 0. project_progress. split; [done|]. congruence.
    - exists (length texts). project_progress.
      rewrite scripting_events_progress
        by (by apply (answered_length env gen)).
      split; [done|]. intros content' p' _ Hup Hparse.
      assert (p' = p) as -> by congruence.
      apply extract_slide_text_length.
    - exists (length texts). project_progress.
      rewrite scripting_events_progress
        by (by apply (answered_length env gen)).
      split; [done|]. intros content' p' _ Hup Hparse.
      assert (p' = p) as -> by congruence.
      apply extract_slide_text_length.
    - exists (length texts). project_progress.
      rewrite scripting_events_progress
        by (by apply (answered_length env gen)).
      split; [done|]. intros content' p' _ Hup Hparse.
      assert (p' = p) as -> by congruence.
      apply extract_slide_text_length. }
  destruct Hshape as (n & Hn & Hslides).
  assert (Hlen : length reports = n)
    by (rewrite Hn, length_map; apply length_seq).
  rewrite Hlen. split; [done|]. split; [|done].
  rewrite Hn. apply Forall_forall. intros report Hin.
  apply list_elem_of_fmap in Hin as (i & -> & Hi).
  apply elem_of_seq in Hi. simpl. lia.
Qed.

Lemma progress_fractions_witness :
  length (progress_reports
            (new_events world0 (snd (main env_llm_flaky inputs_go world0))))
  = 3.
Proof.
  apply (proj2 (proj2 (progress_fractions env_llm_flaky inputs_go world0))
           "PK" deck3); reflexivity.
Defined.

Section ScriptingLoopFacts.

Lemma script_events_errors (gen : ClaudePPTScriptGenerator) (t : string)
    (r : exn + list ContentBlock) :
  errors_shown (script_events gen t r) = option_list (notice_of_response r).
Proof.
  unfold script_events, notice_of_response. by destruct (script_result r).
Qed.

Lemma scripting_events_errors (gen : ClaudePPTScriptGenerator) (n k : nat)
    (texts : list string) (responses : list (exn + list ContentBlock)) :
  length responses = length texts ->
  errors_shown (scripting_events gen n k texts responses)
  = omap notice_of_response responses.
Proof.
  revert k responses; induction texts as [|t texts IH];
    intros k [|r responses] Hlen; try done.
  injection Hlen as Hlen.
  rewrite scripting_events_cons, !errors_shown_app, script_events_errors,
    IH by done.
  simpl. by destruct (notice_of_response r).
Qed.

End ScriptingLoopFacts.

(** X5 — The scripting loop isolates failures.  The loop never raises and
    never touches the file system or the speech service; it sends exactly
    one request per slide text, in order, with the prompt built from that
    text, and never a second one for the same slide; script [i] is the
    leading text of answer [i], or the fallback for slide text [i] when
    request [i] failed; and exactly one notice is shown per failed
    request. *)
Theorem scripting_loop_isolates_failures (env : Env)
    (gen : ClaudePPTScriptGenerator) (slide_texts : list string) (w : World) :
  let run := scripting_loop env gen slide_texts w in
  let new := new_events w (snd run) in
  exists (scripts : list string) (responses : list (exn + list ContentBlock)),
    fst run = inr scripts
    /\ length scripts = length slide_texts
    /\ length responses = length slide_texts
    /\ fs (snd run) = fs w
    /\ llm_calls new
       = zip_with (fun t r => (model gen, 300, prompt t, r))
           slide_texts responses
    /\ (forall (i : nat) (t : string) (r : exn + list ContentBlock),
          slide_texts !! i = Some t -> responses !! i = Some r ->
          scripts !! i
          = Some (match script_result r with
                  | inr answer => answer
                  | inl _ => "Slide content: " +:+ t
                  end))
    /\ errors_shown new = omap notice_of_response responses
    /\ tts_calls new = []
    /\ files_written new = [].
Proof.
  intros run new. unfold new, run. clear new run.
  destruct (scripting_loop_spec env gen slide_texts w)
    as (responses & Hans & ->).
  pose proof (answered_length env gen _ _ Hans) as Hlen.
  exists (zip_with script_of_response slide_texts responses), responses.
  cbn [fst snd]. rewrite new_events_after, fs_after.
  split; [done|].
  split; [rewrite length_zip_with; lia|].
  split; [done|]. split; [done|].
  split; [apply scripting_events_llm|].
  split.
  { intros i t r Ht Hr. rewrite lookup_zip_with, Ht. simpl. by rewrite Hr. }
  split; [by apply scripting_events_errors|].
  split; apply scripting_events_other.
Qed.

(** X7 — Unparsable document.  When the uploaded bytes cannot be parsed,
    the run consists of exactly three steps: the document copy is written,
    the parser's message is shown as [An error occurred: <message>], and the
    copy is removed.  Neither remote service is contacted. *)
Theorem unparsable_document_aborts_early (env : Env) (inp : Inputs)
    (w : World) (content : string) (e : exn) :
  gate inp = true ->
  uploaded_file inp = Some content ->
  parse_pptx env content = inl e ->
  let tmp := tmp_pptx_path env w in
  main env inp w
  = (inr tt,
     after w (delete tmp (<[tmp := content]> (fs w)))
       [FileWrite tmp content;
        StError ("An error occurred: " +:+ str_exn e);
        FileUnlink tmp]).
Proof.
  intros Hgate Hup Hparse tmp.
  pose proof (main_run_shape env inp w) as Hshape.
  destruct (main env inp w) as [res w'].
  inversion Hshape; subst; try congruence.
  assert (content0 = content) as -> by congruence.
  assert (e0 = e) as -> by congruence.
  done.
Qed.

Lemma unparsable_document_aborts_early_witness :
  trace (snd (main env_bad_document inputs_go world0))
  = [FileWrite "/tmp/tmpabcd1234.pptx" "PK";
     StError "An error occurred: Package not found";
     FileUnlink "/tmp/tmpabcd1234.pptx"].
Proof.
  rewrite (unparsable_document_aborts_early env_bad_document inputs_go world0
             "PK" (Exception "Package not found") eq_refl eq_refl eq_refl).
  reflexivity.
Defined.

Lemma scripting_loop_isolates_failures_witness :
  exists scripts,
    fst (scripting_loop env_llm_flaky (ClaudePPTScriptGenerator_init "sk-test")
           ["Intro "; ""; "Conclusion"] world0) = inr scripts
    /\ length scripts = 3.
Proof.
  destruct (scripting_loop_isolates_failures env_llm_flaky
              (ClaudePPTScriptGenerator_init "sk-test")
              ["Intro "; ""; "Conclusion"] world0)
    as (scripts & responses & Hrun & Hlen & _).
  exists scripts. by split.
Defined.

Section SynthesisFacts.
Context (env : Env).

Lemma synth_events_requests (voice : string)
    (scripts paths audios : list string) :
  length paths = length scripts -> length audios = length scripts ->
  map (fun call : string * string * (exn + string) => (call.1.1, call.1.2))
    (tts_calls (synth_events voice scripts paths audios))
  = map (fun s => (s, voice)) scripts.
Proof.
  intros Hp Ha. rewrite synth_events_tts by done. clear Hp.
  revert audios Ha; induction scripts as [|s scripts IH];
    intros [|a audios] Ha; simplify_eq/=; [done|].
  by rewrite IH.
Qed.

End SynthesisFacts.

(** X8 — [generate_audio] stops at the first failure.  When the call raises
    [e], the scripts split into those already synthesized, the one that
    failed and the rest: the requests sent are exactly those of the first
    group, all answered, followed by the failed one, and no request is sent
    for the rest.  The files of the first group have been written and are
    still in the temp directory, although the caller receives no path. *)
Theorem generate_audio_stops_at_first_failure (env : Env)
    (scripts : list string) (voice : string) (w : World) (e : exn) :
  fst (generate_audio env scripts voice w) = inl e ->
  let w' := snd (generate_audio env scripts voice w) in
  let new := new_events w w' in
  exists (ready : list string) (failing : string) (rest : list string)
         (audios paths : list string),
    scripts = ready ++ failing :: rest
    /\ length audios = length ready
    /\ length paths = length ready
    /\ tts_calls new
       = zip_with (fun s a => (s, voice, inr a)) ready audios
         ++ [(failing, voice, inl e)]
    /\ NoDup paths
    /\ (forall path, path ∈ paths ->
          path ∈ files_written new /\ is_Some (fs w' !! path)).
Proof.
  intros Hrun w' new. unfold new, w'. clear new w'.
  destruct (generate_audio_cases env voice scripts w)
    as [(uuids & audios & Hu & Ha & _ & Heq)
       |(ready & failing & rest & e' & uuids & audios & fpath & partial
         & Hsplit & Hu & Ha & _ & Heq)];
    rewrite Heq in Hrun |- *; simpl in Hrun; [done|].
  injection Hrun as ->.
  set (paths := audio_paths (gettempdir env) 1 uuids).
  assert (Hp : length paths = length ready)
    by (unfold paths; rewrite audio_paths_length; lia).
  exists ready, failing, rest, audios, paths.
  cbn [snd]. rewrite new_events_after, fs_after.
  split; [done|]. split; [done|]. split; [done|].
  split.
  { rewrite !tts_calls_app, synth_events_tts by done.
    by rewrite (proj1 (proj2 (partial_events_projections _ _))). }
  split; [apply audio_paths_NoDup|].
  intros path Hin. split.
  - rewrite files_written_app, synth_events_written by done.
    apply elem_of_app. by left.
  - apply leave_partial_preserves, write_all_present; [lia|done].
Qed.

Lemma generate_audio_stops_at_first_failure_witness :
  exists ready failing rest,
    ["a"; "b"; "c"] = ready ++ failing :: rest
    /\ length
         (tts_calls
            (new_events world0
               (snd (generate_audio env_tts_leaves_file ["a"; "b"; "c"] "en"
                       world0))))
       = S (length ready).
Proof.
  destruct (generate_audio_stops_at_first_failure env_tts_leaves_file
              ["a"; "b"; "c"] "en" world0 (Exception "503 unavailable")
              eq_refl)
    as (ready & failing & rest & audios & paths & Hsplit & Ha & _ & Hcalls & _).
  exists ready, failing, rest. split; [done|].
  rewrite Hcalls, length_app, length_zip_with. simpl. lia.
Defined.

(** X9 — What a successful [generate_audio] does.  When the call returns,
    it has sent one request per script, in order and with the given
    language code, the files it has written are exactly the returned paths,
    each of them exists, every other path of the temp directory holds what
    it held before, and neither the language model nor the display was
    involved. *)
Theorem generate_audio_success_effects (env : Env) (scripts : list string)
    (voice : string) (w : World) (audio_files : list string) :
  fst (generate_audio env scripts voice w) = inr audio_files ->
  let w' := snd (generate_audio env scripts voice w) in
  let new := new_events w w' in
  map (fun call => (call.1.1, call.1.2)) (tts_calls new)
  = map (fun s => (s, voice)) scripts
  /\ files_written new = audio_files
  /\ (forall path, path ∈ audio_files -> is_Some (fs w' !! path))
  /\ (forall q, q ∉ audio_files -> fs w' !! q = fs w !! q)
  /\ llm_calls new = []
  /\ displayed new = []
  /\ errors_shown new = [].
Proof.
  intros Hrun w' new. unfold new, w'. clear new w'.
  destruct (generate_audio_cases env voice scripts w)
    as [(uuids & audios & Hu & Ha & _ & Heq)
       |(ready & failing & rest & e' & uuids & audios & fpath & partial
         & Hsplit & Hu & Ha & _ & Heq)];
    rewrite Heq in Hrun |- *; simpl in Hrun; [|done].
  injection Hrun as <-.
  set (paths := audio_paths (gettempdir env) 1 uuids).
  assert (Hp : length paths = length scripts)
    by (unfold paths; rewrite audio_paths_length; lia).
  cbn [snd]. rewrite new_events_after, fs_after.
  split; [by apply synth_events_requests|].
  split; [by apply synth_events_written|].
  split; [intros path Hin; apply write_all_present; [lia|done]|].
  split; [intros q Hq; by apply write_all_lookup_other|].
  apply synth_events_other.
Qed.

Lemma generate_audio_success_effects_witness :
  files_written
    (new_events world_busy (snd (generate_audio env_ok ["a"; "b"] "en" world_busy)))
  = ["/tmp/slide_1_id0.mp3"; "/tmp/slide_2_id2.mp3"].
Proof.
  apply (generate_audio_success_effects env_ok ["a"; "b"] "en" world_busy
           ["/tmp/slide_1_id0.mp3"; "/tmp/slide_2_id2.mp3"]).
  reflexivity.
Defined.

(** X10 — Display is all or nothing.  In every run either nothing is
    displayed, or the header is displayed followed by one row per slide of
    the parsed document, row [k] showing [Slide k], script [k] and the audio
    file numbered [k]; in the second case no request to the speech service
    has failed and the files unlinked are the document copy and exactly the
    displayed audio files. *)
Theorem display_all_or_nothing (env : Env) (inp : Inputs) (w : World) :
  let new := new_events w (snd (main env inp w)) in
  displayed new = []
  \/ exists (content : string) (p : Presentation)
            (scripts uuids : list string),
       let paths := audio_paths (gettempdir env) 1 uuids in
       uploaded_file inp = Some content
       /\ parse_pptx env content = inr p
       /\ length scripts = length (slides p)
       /\ length paths = length (slides p)
       /\ displayed new = display_events scripts paths
       /\ (forall script lang e, (script, lang, inl e) ∉ tts_calls new)
       /\ files_unlinked new = tmp_pptx_path env w :: paths.
Proof.
  intros new. unfold new. clear new.
  pose proof (main_run_shape env inp w) as Hshape.
  destruct (main env inp w) as [res w'].
  inversion Hshape; subst; cbn [fst snd].
  - left. by rewrite new_events_same.
  - left. by project_trace.
  - left. project_trace.
    by rewrite (proj2 (proj2 (scripting_events_other _ _ _ _ _))).
  - left. project_trace.
    rewrite (proj2 (proj2 (scripting_events_other _ _ _ _ _))).
    rewrite (proj1 (proj2 (synth_events_other _ _ _ _))).
    by rewrite (proj1 (proj2 (proj2 (partial_events_projections _ _)))).
  - right. exists content, p, scripts, uuids. cbv zeta. fold paths.
    assert (Hs : length scripts = length (slides p)).
    { unfold scripts. rewrite length_zip_with.
      match goal with
      | H : answered _ _ _ _ |- _ => apply (answered_length env) in H
      end.
      unfold texts. rewrite <- extract_slide_text_length. lia. }
    assert (Hp : length paths = length (slides p)).
    { unfold paths. rewrite audio_paths_length, <- extract_slide_text_length.
      done. }
    split; [done|]. split; [done|]. split; [done|]. split; [done|].
    split.
    { project_trace.
      rewrite (proj2 (proj2 (scripting_events_other _ _ _ _ _))).
      rewrite (proj1 (proj2 (synth_events_other _ _ _ _))).
      rewrite (proj1 (display_rows_projections _ _ _)).
      rewrite (proj1 (unlinks_projections _)).
      by rewrite !app_nil_r. }
    split.
    { intros script lang e. project_trace.
      rewrite (proj1 (scripting_events_other _ _ _ _ _)).
      rewrite (proj1 (proj2 (proj2 (display_rows_projections _ _ _)))).
      rewrite (proj1 (proj2 (proj2 (unlinks_projections _)))).
      rewrite !app_nil_r. cbn [app]. apply synth_events_tts_answers. }
    project_trace.
    rewrite scripting_events_unlinked, synth_events_unlinked,
      display_rows_unlinked.
    by rewrite (proj2 (proj2 (proj2 (proj2 (proj2 (unlinks_projections _)))))).
Qed.

(** X11 — The stages do not interleave.  The events of every run split
    into three consecutive parts: in the first no request goes to the
    speech service and nothing is displayed, in the second no request goes
    to the language model and nothing is displayed, and in the third no
    request goes to either service.  Hence every request to the language
    model precedes every request to the speech service, which precedes
    every display, and the speech service is never asked more often than
    the language model. *)
Theorem stages_do_not_interleave (env : Env) (inp : Inputs) (w : World) :
  let new := new_events w (snd (main env inp w)) in
  (exists scripting synthesis closing,
     new = scripting ++ synthesis ++ closing
     /\ tts_calls scripting = [] /\ displayed scripting = []
     /\ llm_calls synthesis = [] /\ displayed synthesis = []
     /\ llm_calls closing = [] /\ tts_calls closing = [])
  /\ length (tts_calls new) <= length (llm_calls new).
Proof.
  intros new. unfold new. clear new.
  pose proof (main_run_shape env inp w) as Hshape.
  destruct (main env inp w) as [res w'].
  inversion Hshape; subst; cbn [fst snd].
  - rewrite new_events_same. split; [by exists [], [], []|done].
  - rewrite new_events_after. split; [|simpl; lia].
    by eexists [], [], _.
  - rewrite new_events_after. split.
    + exists (FileWrite tmp content
              :: scripting_events gen (length texts) 0 texts responses),
        [], [StError ("An error occurred: "
                      +:+ str_exn (KeyError (selected_voice inp)));
             FileUnlink tmp].
      split; [done|].
      split; [project_trace;
              by rewrite (proj1 (scripting_events_other _ _ _ _ _))|].
      split; [project_trace;
              by rewrite (proj2 (proj2 (scripting_events_other _ _ _ _ _)))|].
      done.
    + project_trace.
      rewrite (proj1 (scripting_events_other _ _ _ _ _)). simpl. lia.
  - assert (Hp : length paths = length ready)
      by (unfold paths; rewrite audio_paths_length; lia).
    match goal with
    | H : answered _ _ _ _ |- _ => pose proof (answered_length env _ _ _ H) as Hr
    end.
    assert (Hready : length ready < length (extract_slide_text p)).
    { match goal with
      | H : zip_with _ _ _ = ready ++ _ :: _ |- _ =>
          apply (f_equal length) in H;
          rewrite length_zip_with, length_app in H; simpl in H
      end. lia. }
    rewrite new_events_after. split.
    + exists (FileWrite tmp content
              :: scripting_events gen (length texts) 0 texts responses),
        (synth_events voice ready paths audios
         ++ partial_events fpath partial ++ [TtsCall failing voice (inl e)]),
        [StError ("An error occurred: " +:+ str_exn e); FileUnlink tmp].
      split; [by rewrite <- !app_assoc|].
      split; [project_trace;
              by rewrite (proj1 (scripting_events_other _ _ _ _ _))|].
      split; [project_trace;
              by rewrite (proj2 (proj2 (scripting_events_other _ _ _ _ _)))|].
      split.
      { project_trace. rewrite (proj1 (synth_events_other _ _ _ _)).
        by rewrite (proj1 (partial_events_projections _ _)). }
      split; [|done].
      project_trace. rewrite (proj1 (proj2 (synth_events_other _ _ _ _))).
      by rewrite (proj1 (proj2 (proj2 (partial_events_projections _ _)))).
    + project_trace.
      rewrite (proj1 (scripting_events_other _ _ _ _ _)).
      rewrite (proj1 (proj2 (partial_events_projections _ _))).
      rewrite (proj1 (synth_events_other _ _ _ _)).
      rewrite (proj1 (partial_events_projections _ _)).
      rewrite synth_events_tts, scripting_events_llm by (done || lia).
      rewrite !app_nil_r. cbn [app].
      rewrite length_app, !length_zip_with. unfold texts. simpl. lia.
  - match goal with
    | H : answered _ _ _ _ |- _ => pose proof (answered_length env _ _ _ H) as Hr
    end.
    assert (Hs : length scripts = length (extract_slide_text p))
      by (unfold scripts, texts; rewrite length_zip_with; lia).
    assert (Hp : length paths = length scripts)
      by (unfold paths; rewrite audio_paths_length; lia).
    rewrite new_events_after. split.
    + exists (FileWrite tmp content
              :: scripting_events gen (length texts) 0 texts responses),
        (synth_events voice scripts paths audios),
        (display_events scripts paths ++ FileUnlink tmp :: map FileUnlink paths).
      split; [done|].
      split; [project_trace;
              by rewrite (proj1 (scripting_events_other _ _ _ _ _))|].
      split; [project_trace;
              by rewrite (proj2 (proj2 (scripting_events_other _ _ _ _ _)))|].
      split; [apply synth_events_other|].
      split; [apply synth_events_other|].
      split.
      * project_trace.
        rewrite (proj1 (proj2 (display_rows_projections _ _ _))).
        by rewrite (proj1 (proj2 (unlinks_projections _))).
      * project_trace.
        rewrite (proj1 (proj2 (proj2 (display_rows_projections _ _ _)))).
        by rewrite (proj1 (proj2 (proj2 (unlinks_projections _)))).
    + project_trace.
      rewrite (proj1 (scripting_events_other _ _ _ _ _)).
      rewrite (proj1 (synth_events_other _ _ _ _)).
      rewrite (proj1 (proj2 (display_rows_projections _ _ _))).
      rewrite (proj1 (proj2 (proj2 (display_rows_projections _ _ _)))).
      rewrite (proj1 (proj2 (unlinks_projections _))).
      rewrite (proj1 (proj2 (proj2 (unlinks_projections _)))).
      rewrite synth_events_tts, scripting_events_llm by (done || lia).
      rewrite !app_nil_r. cbn [app].
      rewrite !length_zip_with. unfold texts. lia.
Qed.

Section RenderFacts.

Lemma dict_lookup_Some (d : list (string * string)) (key : string) :
  key ∈ d.*1 -> is_Some (dict_lookup d key).
Proof.
  induction d as [|[k v] d IH]; simpl; [by intros ?%elem_of_nil|].
  intros Hin. destruct (bool_decide_reflect (k = key)) as [->|Hne];
    [by eexists|].
  apply IH. apply elem_of_cons in Hin as [Heq|Hin]; [|done].
  by destruct Hne.
Qed.

End RenderFacts.

(** X12 — Failed requests to the language model do not prevent the
    display.  If the document parses, the selected label is a key of
    [voice_options] and no request of the run to the speech service fails,
    then the run displays one row per slide, whatever happened to its
    requests to the language model: script [i] is the answer for slide [i],
    or the fallback for slide [i] when its request failed; and the notices
    shown are exactly those of the failed requests to the language model,
    one each, so that [An error occurred] is not among them. *)
Theorem display_despite_llm_failures (env : Env) (inp : Inputs) (w : World)
    (content : string) (p : Presentation) :
  gate inp = true ->
  uploaded_file inp = Some content ->
  parse_pptx env content = inr p ->
  selected_voice inp ∈ voice_options.*1 ->
  let new := new_events w (snd (main env inp w)) in
  (forall script lang e, (script, lang, inl e) ∉ tts_calls new) ->
  exists (responses : list (exn + list ContentBlock))
         (audio_files : list string),
    let scripts :=
      zip_with script_of_response (extract_slide_text p) responses in
    answered env (ClaudePPTScriptGenerator_init (api_key_input inp))
      (extract_slide_text p) responses
    /\ length scripts = length (slides p)
    /\ length audio_files = length (slides p)
    /\ displayed new = display_events scripts audio_files
    /\ errors_shown new = omap notice_of_response responses.
Proof.
  intros Hgate Hup Hparse [voice Hvoice]%dict_lookup_Some new.
  unfold new. clear new.
  pose proof (main_run_shape env inp w) as Hshape.
  destruct (main env inp w) as [res w'].
  inversion Hshape; subst; cbn [fst snd]; try congruence; intros Hnofail.
  - exfalso. apply (Hnofail failing voice0 e).
    project_trace.
    rewrite (proj1 (scripting_events_other _ _ _ _ _)).
    rewrite (proj1 (proj2 (partial_events_projections _ _))). cbn [app].
    apply elem_of_app. right. by left.
  - assert (p0 = p) as -> by congruence.
    match goal with
    | H : answered _ _ _ _ |- _ => pose proof (answered_length env _ _ _ H) as Hr
    end.
    assert (Hs : length scripts = length (slides p)).
    { unfold scripts, texts.
      rewrite length_zip_with, <- extract_slide_text_length. lia. }
    exists responses, paths. cbv zeta. fold texts. fold scripts.
    split; [done|]. split; [done|].
    split.
    { unfold paths. rewrite audio_paths_length, <- extract_slide_text_length.
      done. }
    split.
    + project_trace.
      rewrite (proj2 (proj2 (scripting_events_other _ _ _ _ _))).
      rewrite (proj1 (proj2 (synth_events_other _ _ _ _))).
      rewrite (proj1 (display_rows_projections _ _ _)).
      rewrite (proj1 (unlinks_projections _)).
      by rewrite !app_nil_r.
    + project_trace.
      rewrite scripting_events_errors by done.
      rewrite (proj2 (proj2 (synth_events_other _ _ _ _))).
      rewrite (proj2 (proj2 (proj2 (proj2 (display_rows_projections _ _ _))))).
      rewrite (proj1 (proj2 (proj2 (proj2 (proj2 (unlinks_projections _)))))).
      by rewrite !app_nil_r.
Qed.

Lemma display_despite_llm_failures_witness :
  exists responses audio_files,
    displayed (new_events world0 (snd (main env_llm_flaky inputs_go world0)))
    = display_events
        (zip_with script_of_response (extract_slide_text deck3) responses)
        audio_files
    /\ errors_shown
         (new_events world0 (snd (main env_llm_flaky inputs_go world0)))
       = omap notice_of_response responses.
Proof.
  destruct (display_despite_llm_failures env_llm_flaky inputs_go world0 "PK"
              deck3)
    as (responses & audio_files & _ & _ & _ & Hshown & Herr).
  - reflexivity.
  - reflexivity.
  - reflexivity.
  - apply list_elem_of_In. right. right. left. reflexivity.
  - intros script lang e. vm_compute. intros Hin.
    apply list_elem_of_In in Hin. simpl in Hin. intuition discriminate.
  - exists responses, audio_files. split; [exact Hshown|exact Herr].
Defined.

Section JoinFacts.

Lemma str_join_empty (parts : list string) :
  str_join " " parts = "" <-> parts = [] \/ parts = [""].
Proof.
  split.
  - destruct parts as [|x [|y rest]]; simpl.
    + by left.
    + intros ->. by right.
    + intros Heq. apply (f_equal String.length) in Heq.
      rewrite !string_app_length in Heq. simpl in Heq. lia.
  - by intros [->| ->].
Qed.

End JoinFacts.

(** X13 — Slides are extracted independently.  The texts of a presentation
    whose slides are those of [a] followed by those of [b] are the texts of
    [a] followed by the texts of [b]: the entry of a slide does not depend
    on the other slides. *)
Theorem extract_slide_text_app (a b : list Slide) :
  extract_slide_text {| slides := a ++ b |}
  = extract_slide_text {| slides := a |}
    ++ extract_slide_text {| slides := b |}.
Proof.
  rewrite !extract_slide_text_eq_spec. unfold extract_spec. simpl.
  apply map_app.
Qed.

(** X14 — When a slide yields the empty string.  The entry of a slide is
    the empty string exactly when the slide has no text-bearing shape, or a
    single one whose text is empty; such slides cannot be told apart in the
    output. *)
Theorem extract_slide_text_empty_entry (p : Presentation) (i : nat)
    (slide : Slide) :
  slides p !! i = Some slide ->
  (extract_slide_text p !! i = Some ""
   <-> omap text (shapes slide) = [] \/ omap text (shapes slide) = [""]).
Proof.
  intros Hi. rewrite extract_slide_text_eq_spec. unfold extract_spec.
  rewrite list_lookup_fmap, Hi. simpl.
  unfold slide_text_spec, shape_texts. rewrite <- str_join_empty.
  split; [by intros [= ->]|by intros ->].
Qed.

Lemma extract_slide_text_empty_entry_witness :
  extract_slide_text deck3 !! 1 = Some "".
Proof.
  apply (extract_slide_text_empty_entry deck3 1 slide_picture eq_refl).
  by left.
Defined.

Section RequestFacts.

Lemma scripting_events_uses_key (gen : ClaudePPTScriptGenerator) (n k : nat)
    (texts : list string) (responses : list (exn + list ContentBlock)) :
  Forall (uses_key (api_key (client gen)))
    (scripting_events gen n k texts responses).
Proof.
  revert k responses; induction texts as [|t texts IH];
    intros k [|r responses]; try by constructor.
  rewrite scripting_events_cons. repeat apply Forall_app_2.
  - unfold script_events. destruct (script_result r); by repeat constructor.
  - by repeat constructor.
  - apply IH.
Qed.

Lemma synth_events_uses_key (key voice : string)
    (scripts paths audios : list string) :
  Forall (uses_key key) (synth_events voice scripts paths audios).
Proof.
  revert paths audios; induction scripts as [|s scripts IH];
    intros [|p paths] [|a audios]; try by constructor.
  simpl. repeat (constructor; [done|]). apply IH.
Qed.

Lemma display_rows_uses_key (key : string) (k : nat)
    (scripts paths : list string) :
  Forall (uses_key key) (display_rows k scripts paths).
Proof.
  revert k paths; induction scripts as [|s scripts IH];
    intros k [|p paths]; try by constructor.
  simpl. repeat (constructor; [done|]). apply IH.
Qed.

Lemma unlinks_uses_key (key : string) (paths : list string) :
  Forall (uses_key key) (map FileUnlink paths).
Proof. induction paths; by constructor. Qed.

Lemma partial_events_uses_key (key path : string) (partial : option string) :
  Forall (uses_key key) (partial_events path partial).
Proof. destruct partial; by repeat constructor. Qed.

Lemma tts_calls_lang (voice : string) (scripts audios : list string)
    (call : string * string * (exn + string)) :
  call ∈ zip_with (fun s a => (s, voice, @inr exn string a)) scripts audios ->
  call.1.2 = voice.
Proof.
  intros Hin. by apply elem_of_lookup_zip_with in Hin as (i & s & a & -> & _).
Qed.

End RequestFacts.

(** X15 — The language sent to the speech service.  Every request a run
    sends to the speech service carries the language code that
    [voice_options] holds for the selected label; the default ['en'] of
    [generate_audio] is never relied upon. *)
Theorem tts_language_is_selected_voice (env : Env) (inp : Inputs) (w : World)
    (call : string * string * (exn + string)) :
  call ∈ tts_calls (new_events w (snd (main env inp w))) ->
  dict_lookup voice_options (selected_voice inp) = Some call.1.2.
Proof.
  pose proof (main_run_shape env inp w) as Hshape.
  destruct (main env inp w) as [res w'].
  inversion Hshape; subst; cbn [fst snd].
  - rewrite new_events_same. by intros ?%elem_of_nil.
  - project_trace. by intros ?%elem_of_nil.
  - project_trace. rewrite (proj1 (scripting_events_other _ _ _ _ _)).
    by intros ?%elem_of_nil.
  - assert (Hp : length paths = length ready)
      by (unfold paths; rewrite audio_paths_length; lia).
    project_trace.
    rewrite (proj1 (scripting_events_other _ _ _ _ _)).
    rewrite (proj1 (proj2 (partial_events_projections _ _))).
    rewrite synth_events_tts by done. rewrite !app_nil_r. cbn [app].
    intros [Hin|Hin]%elem_of_app.
    + by rewrite (tts_calls_lang _ _ _ _ Hin).
    + by apply list_elem_of_singleton in Hin as ->.
  - match goal with
    | H : answered _ _ _ _ |- _ => pose proof (answered_length env _ _ _ H) as Hr
    end.
    assert (Hs : length scripts = length (extract_slide_text p))
      by (unfold scripts, texts; rewrite length_zip_with; lia).
    assert (Hp : length paths = length scripts)
      by (unfold paths; rewrite audio_paths_length; lia).
    project_trace.
    rewrite (proj1 (scripting_events_other _ _ _ _ _)).
    rewrite (proj1 (proj2 (proj2 (display_rows_projections _ _ _)))).
    rewrite (proj1 (proj2 (proj2 (unlinks_projections _)))).
    rewrite synth_events_tts by lia. rewrite !app_nil_r. cbn [app].
    intros Hin. by rewrite (tts_calls_lang _ _ _ _ Hin).
Qed.

Lemma tts_language_is_selected_voice_witness :
  dict_lookup voice_options (selected_voice inputs_go) = Some "fr".
Proof.
  apply (tts_language_is_selected_voice env_ok inputs_go world0
           ("Welcome.", "fr", inr "mp3:Welcome.")).
  vm_compute. left.
Defined.

(** X16 — The credential of the requests.  Every request a run sends to
    the language model is made with the credential typed into the key
    field, unchanged. *)
Theorem llm_requests_use_typed_key (env : Env) (inp : Inputs) (w : World) :
  Forall (uses_key (api_key_input inp))
    (new_events w (snd (main env inp w))).
Proof.
  pose proof (main_run_shape env inp w) as Hshape.
  destruct (main env inp w) as [res w'].
  inversion Hshape; subst; cbn [fst snd]; rewrite ?new_events_after.
  - rewrite new_events_same. constructor.
  - by repeat constructor.
  - constructor; [done|]. apply Forall_app_2.
    + apply (scripting_events_uses_key gen).
    + by repeat constructor.
  - constructor; [done|]. repeat apply Forall_app_2.
    + apply (scripting_events_uses_key gen).
    + apply synth_events_uses_key.
    + apply partial_events_uses_key.
    + by repeat constructor.
  - constructor; [done|]. repeat apply Forall_app_2.
    + apply (scripting_events_uses_key gen).
    + apply synth_events_uses_key.
    + constructor; [done|]. apply Forall_app_2.
      * apply display_rows_uses_key.
      * constructor; [done|]. apply unlinks_uses_key.
Qed.
